(** * db_explorer: a schema-driven CRUD service over database/sql

    Shallow embedding of [db_explorer.go] (the revision with
    [ValidationOptions.WithDefaultValues] and a [processForm] that returns
    the sanitized form), and the properties of its field validator, router,
    pagination decoder and constructor.

    Conventions.
    - A Go [map[string]any] is a [gmap string Value]; a Go [any] is a
      [Value], tagged by its dynamic type.
    - A Go [(T, error)] result is a pair [T * option error]; [None] is the
      [nil] error.
    - The relational engine and its driver are outside the repository: they
      appear as the record [sqlDB] of the answers the driver gives. *)

From Stdlib Require Import ZArith String Ascii List Bool Lia.
From Stdlib Require Import Floats.SpecFloat.
From stdpp Require Import base option list gmap strings fin_maps.

Local Open Scope string_scope.
Set Warnings "-register-all".

(** ** Values held by an [any] *)

(** The dynamic types an [any] takes in this program: what
    [encoding/json] decodes into a [map[string]any] ([nil], [bool],
    [float64], [string], [[]any], [map[string]any]) and the [int] that
    [getDefaultValue] and the executor produce. *)
Inductive Value : Type :=
| VNil
| VBool (b : bool)
| VFloat64 (f : spec_float)
| VString (s : string)
| VInt (n : Z)
| VSlice (l : list Value)
| VMap (l : list (string * Value)).

(** ** Errors *)

(** [error] values built by this program: [fmt.Errorf] (and driver
    errors, which carry a message too) and [ValidationError]. *)
Inductive error : Type :=
| Errorf (msg : string)
| ValidationError (Field : string).

Definition NewValidationError (field : string) : error :=
  ValidationError field.

(** The [Error()] method; for [ValidationError] it is
    [fmt.Sprintf("field %s have invalid type", e.Field)]. *)
Definition Error (e : error) : string :=
  match e with
  | Errorf msg => msg
  | ValidationError field => "field " +:+ field +:+ " have invalid type"
  end.

(** ** Column descriptors and validation options *)

(** What the program reads of a [*sql.ColumnType]: [Name()],
    [DatabaseTypeName()] and [Nullable()], the latter with its [ok] flag
    as second component. *)
Record ColumnType : Type := {
  Name : string;
  DatabaseTypeName : string;
  Nullable : bool * bool
}.

Record ValidationOptions : Type := {
  IgnorePk : bool;
  IgnoreNotProvidedField : bool;
  WithDefaultValues : bool
}.

Definition isNumberType (columnType : string) : bool :=
  existsb (fun v => String.eqb v columnType) ["NUMBER"].

Definition isStringType (columnType : string) : bool :=
  existsb (fun v => String.eqb v columnType) ["VARCHAR"; "TEXT"; "NVARCHAR"].

Definition getDefaultValue (dbTypeName : string) : Value :=
  if isNumberType dbTypeName then VInt 0
  else if isStringType dbTypeName then VString EmptyString
  else VBool false.

(** ** The field validator *)

(** The loop of [processForm] over [columns], with [newForm] the map
    built so far. Each [return] of the Go loop ends the recursion with the
    map as it is at that point; each [continue] goes on with the rest. *)
Fixpoint processColumns (form : gmap string Value) (columns : list ColumnType)
    (primaryKey : string) (validationOptions : ValidationOptions)
    (newForm : gmap string Value) : gmap string Value * option error :=
  match columns with
  | [] => (newForm, None)
  | c :: rest =>
    let name := Name c in
    let '(nullable, ok) := Nullable c in
    if negb ok then
      (newForm, Some (Errorf "db driver does not support nullable"))
    else if decide (name = primaryKey) then
      if bool_decide (is_Some (form !! name)) && negb (IgnorePk validationOptions) then
        (newForm, Some (NewValidationError name))
      else
        processColumns form rest primaryKey validationOptions newForm
    else
      match form !! name with
      | Some value =>
        let accepted :=
          match value with
          | VFloat64 _ => isNumberType (DatabaseTypeName c)
          | VString _ => isStringType (DatabaseTypeName c)
          | VNil => nullable
          | _ => true
          end in
        if negb accepted then (newForm, Some (NewValidationError name))
        else processColumns form rest primaryKey validationOptions
               (<[name := value]> newForm)
      | None =>
        if IgnoreNotProvidedField validationOptions then
          processColumns form rest primaryKey validationOptions newForm
        else if negb nullable then
          if negb (WithDefaultValues validationOptions) then
            (newForm, Some (NewValidationError name))
          else
            processColumns form rest primaryKey validationOptions
              (<[name := getDefaultValue (DatabaseTypeName c)]> newForm)
        else
          processColumns form rest primaryKey validationOptions
            (<[name := VNil]> newForm)
      end
  end.

Definition processForm (form : gmap string Value) (columns : list ColumnType)
    (primaryKey : string) (validationOptions : ValidationOptions)
    : gmap string Value * option error :=
  processColumns form columns primaryKey validationOptions ∅.

(** ** The validator over a store of maps *)

(** A Go map is a reference: [form] and [newForm] are two objects of one
    heap, and [newForm[name] = value] is a write into that heap. This
    module runs the same loop over an explicit store, so that what the
    validator does to the caller's map can be stated. *)
Module Store.

Definition loc : Type := positive.

Abbreviation store := (gmap loc (gmap string Value)).

(** [make(map[string]any)]: a fresh, empty map object. *)
Definition make (σ : store) : loc * store :=
  let l := fresh (dom σ) in (l, <[l := ∅]> σ).

(** [value, has := m[name]] *)
Definition get (σ : store) (m : loc) (name : string) : option Value :=
  σ !! m ≫= (λ obj, obj !! name).

(** [m[name] = value] *)
Definition set (σ : store) (m : loc) (name : string) (value : Value) : store :=
  alter (λ obj, <[name := value]> obj) m σ.

Fixpoint processColumns (σ : store) (form : loc) (columns : list ColumnType)
    (primaryKey : string) (validationOptions : ValidationOptions)
    (newForm : loc) : store * option error :=
  match columns with
  | [] => (σ, None)
  | c :: rest =>
    let name := Name c in
    let '(nullable, ok) := Nullable c in
    if negb ok then
      (σ, Some (Errorf "db driver does not support nullable"))
    else if decide (name = primaryKey) then
      if bool_decide (is_Some (get σ form name)) && negb (IgnorePk validationOptions) then
        (σ, Some (NewValidationError name))
      else
        processColumns σ form rest primaryKey validationOptions newForm
    else
      match get σ form name with
      | Some value =>
        let accepted :=
          match value with
          | VFloat64 _ => isNumberType (DatabaseTypeName c)
          | VString _ => isStringType (DatabaseTypeName c)
          | VNil => nullable
          | _ => true
          end in
        if negb accepted then (σ, Some (NewValidationError name))
        else processColumns (set σ newForm name value) form rest primaryKey
               validationOptions newForm
      | None =>
        if IgnoreNotProvidedField validationOptions then
          processColumns σ form rest primaryKey validationOptions newForm
        else if negb nullable then
          if negb (WithDefaultValues validationOptions) then
            (σ, Some (NewValidationError name))
          else
            processColumns
              (set σ newForm name (getDefaultValue (DatabaseTypeName c)))
              form rest primaryKey validationOptions newForm
        else
          processColumns (set σ newForm name VNil) form rest primaryKey
            validationOptions newForm
      end
  end.

(** [processForm] proper: allocate [newForm], run the loop, return the
    reference together with the error. *)
Definition processForm (σ : store) (form : loc) (columns : list ColumnType)
    (primaryKey : string) (validationOptions : ValidationOptions)
    : store * loc * option error :=
  let '(newForm, σ1) := make σ in
  let '(σ2, err) :=
    processColumns σ1 form columns primaryKey validationOptions newForm in
  (σ2, newForm, err).

End Store.

(** ** Results of code that may panic *)

Inductive result (A : Type) : Type :=
| Return (a : A)
| Panic (msg : string).
Arguments Return {A} a.
Arguments Panic {A} msg.

#[global] Instance result_ret : MRet result := λ A a, Return a.

#[global] Instance result_bind : MBind result := λ A B k r,
  match r with
  | Return a => k a
  | Panic msg => Panic msg
  end.

(** ** Route patterns *)

(** The fragment of [regexp] syntax the routes are written in: a sequence
    of single-character atoms, each possibly starred, between [^] and [$].
    Paths and patterns are byte strings; every atom of the fragment accepts
    ASCII bytes only, so matching bytes and matching runes agree. *)
Inductive atom : Type :=
| ALit (c : ascii)           (* the character itself *)
| AWord                      (* \w : [0-9A-Za-z_] *)
| ARange (lo hi : ascii).    (* [lo-hi] *)

Definition between (lo hi c : ascii) : bool :=
  (nat_of_ascii lo <=? nat_of_ascii c)%nat && (nat_of_ascii c <=? nat_of_ascii hi)%nat.

Definition isWord (c : ascii) : bool :=
  between "0" "9" c || between "A" "Z" c || between "a" "z" c || Ascii.eqb c "_".

Definition accepts (a : atom) (c : ascii) : bool :=
  match a with
  | ALit x => Ascii.eqb x c
  | AWord => isWord c
  | ARange lo hi => between lo hi c
  end.

(** A compiled, anchored pattern: atoms paired with their star flag. *)
Abbreviation Regexp := (list (atom * bool)).

Definition isMeta (c : ascii) : bool :=
  existsb (Ascii.eqb c)
    ["\"; "."; "+"; "*"; "?"; "("; ")"; "|"; "["; "]"; "{"; "}"; "^"; "$"]%char.

Notation "'starred' a 'then' rest 'with' rec" :=
  (match rest with
   | String "*"%char rest' => cons (a, true) <$> rec rest'
   | _ => cons (a, false) <$> rec rest
   end) (at level 10, only parsing).

(** The pattern text after its leading [^], up to and including the
    closing [$]. [None] outside the fragment. *)
Fixpoint parseItems (s : string) : option Regexp :=
  match s with
  | EmptyString => None
  | String c s1 =>
    if Ascii.eqb c "$" then
      match s1 with EmptyString => Some [] | _ => None end
    else if Ascii.eqb c "\" then
      match s1 with
      | String e s2 =>
        if Ascii.eqb e "w" then starred AWord then s2 with parseItems else None
      | EmptyString => None
      end
    else if Ascii.eqb c "[" then
      match s1 with
      | String lo (String d (String hi (String b s5))) =>
        if Ascii.eqb d "-" && Ascii.eqb b "]" && isWord lo && isWord hi
           && (nat_of_ascii lo <=? nat_of_ascii hi)%nat
        then starred (ARange lo hi) then s5 with parseItems
        else None
      | _ => None
      end
    else if isMeta c || negb (nat_of_ascii c <? 128)%nat then None
    else starred (ALit c) then s1 with parseItems
  end.

(** [regexp.MustCompile] on the patterns [Handle] builds. A pattern outside
    the fragment is reported as a panic; the six patterns of [initRoutes]
    are inside it. *)
Definition MustCompile (pattern : string) : result Regexp :=
  match pattern with
  | String "^"%char rest =>
    match parseItems rest with
    | Some re => Return re
    | None => Panic ("regexp: Compile(" +:+ pattern +:+ ")")
    end
  | _ => Panic ("regexp: Compile(" +:+ pattern +:+ ")")
  end.

(** [re.MatchString(s)] for an anchored pattern: is the whole of [s] in
    the language of the items. *)
Fixpoint MatchString (re : Regexp) : string → bool :=
  match re with
  | [] => λ s, match s with EmptyString => true | _ => false end
  | (a, false) :: rest => λ s,
    match s with
    | String c s' => accepts a c && MatchString rest s'
    | EmptyString => false
    end
  | (a, true) :: rest =>
    fix star (s : string) : bool :=
      MatchString rest s ||
      match s with
      | String c s' => accepts a c && star s'
      | EmptyString => false
      end
  end.

(** The language of an anchored pattern, as a relation on whole strings. *)
Inductive Matches : Regexp → string → Prop :=
| Matches_nil : Matches [] EmptyString
| Matches_one a rest c s :
    accepts a c = true → Matches rest s → Matches ((a, false) :: rest) (String c s)
| Matches_star_done a rest s :
    Matches rest s → Matches ((a, true) :: rest) s
| Matches_star_more a rest c s :
    accepts a c = true → Matches ((a, true) :: rest) s →
    Matches ((a, true) :: rest) (String c s).

(** ** HTTP requests and responses *)

(** What the handlers read of an [*http.Request]. [ReqBody] is what
    [json.NewDecoder(r.Body).Decode(&form)] leaves in [form] and returns. *)
Record Request : Type := {
  ReqMethod : string;
  ReqPath : string;
  ReqQuery : gmap string (list string);
  ReqBody : gmap string Value * option error
}.

(** The value inside the [{response: ...}] envelope handed to
    [json.Marshal]. *)
Inductive payload : Type :=
| GetTableNamesResponse (Tables : list string)
| GetTableItemsResponse (Records : list (gmap string Value))
| GetTableItemResponse (Record_ : gmap string Value)
| UpdateTableItemResponse (Updated : Z)
| DeleteTableItemResponse (Deleted : Z)
| ResultMap (m : gmap string Value).

(** What is written to the [http.ResponseWriter]: nothing, the JSON of a
    [Response] or of an [ErrorResponse], or the plain text of
    [http.Error]. The JSON text itself is [encoding/json]'s business; its
    failure branch is not modelled. *)
Inductive body : Type :=
| NoBody
| Response (p : payload)
| ErrorResponse (Error_ : string)
| PlainText (s : string).

Record ResponseWriter : Type := {
  Status : Z;
  Body : body
}.

Definition StatusOK : Z := 200.
Definition StatusBadRequest : Z := 400.
Definition StatusNotFound : Z := 404.
Definition StatusInternalServerError : Z := 500.

Definition MethodGet : string := "GET".
Definition MethodPut : string := "PUT".
Definition MethodDelete : string := "DELETE".
Definition MethodPost : string := "POST".

Definition NewErrorResponse (err : error) : body :=
  ErrorResponse (Error err).

(** ** The router *)

Record Route : Type := {
  Method : string;
  Pattern : Regexp;
  Handler : Request → result ResponseWriter
}.

Record Router : Type := {
  routes : list Route
}.

Definition NewRouter : Router := {| routes := [] |}.

Definition Handle (r : Router) (method pattern : string)
    (handler : Request → result ResponseWriter) : result Router :=
  re ← MustCompile ("^" +:+ pattern +:+ "$");
  mret {| routes := routes r ++ [{| Method := method; Pattern := re; Handler := handler |}] |}.

(** The loop of [ServeHTTP] over the routes. *)
Fixpoint serve (rs : list Route) (r : Request) : result ResponseWriter :=
  match rs with
  | [] => Return {| Status := StatusNotFound; Body := NoBody |}
  | route :: rest =>
    if negb (String.eqb (Method route) (ReqMethod r)) then serve rest r
    else if MatchString (Pattern route) (ReqPath r) then Handler route r
    else serve rest r
  end.

(** ** Pagination *)

Record Pagination : Type := {
  Offset : Z;
  Limit : Z
}.

Definition isDigit (c : ascii) : bool := between "0" "9" c.

Fixpoint digitsValue (s : string) (n : Z) : option Z :=
  match s with
  | EmptyString => Some n
  | String ch rest =>
    if isDigit ch
    then digitsValue rest (n * 10 + (Z.of_nat (nat_of_ascii ch) - 48))
    else None
  end.

(** [strconv.Atoi] with a 64-bit [int]: an optional sign, then one or more
    decimal digits, in range; anything else is an error. *)
Definition Atoi (s : string) : Z * option error :=
  let '(neg, digits) :=
    match s with
    | String "-"%char rest => (true, rest)
    | String "+"%char rest => (false, rest)
    | _ => (false, s)
    end in
  match digits with
  | EmptyString => (0%Z, Some (Errorf "strconv.Atoi: invalid syntax"))
  | _ =>
    match digitsValue digits 0 with
    | None => (0%Z, Some (Errorf "strconv.Atoi: invalid syntax"))
    | Some n =>
      let v := if neg : bool then (- n)%Z else n in
      if (v <? - 2 ^ 63)%Z then ((- 2 ^ 63)%Z, Some (Errorf "strconv.Atoi: value out of range"))
      else if (2 ^ 63 - 1 <? v)%Z then ((2 ^ 63 - 1)%Z, Some (Errorf "strconv.Atoi: value out of range"))
      else (v, None)
    end
  end.

(** [url.Values.Has] and [url.Values.Get]. *)
Definition Has (query : gmap string (list string)) (key : string) : bool :=
  bool_decide (is_Some (query !! key)).

Definition Get (query : gmap string (list string)) (key : string) : string :=
  match query !! key with
  | Some (v :: _) => v
  | _ => EmptyString
  end.

Definition getQueryIntValue (query : gmap string (list string)) (key : string)
    (defaultValue : Z) : Z :=
  if negb (Has query key) then defaultValue
  else
    let value := Get query key in
    let '(intValue, err) := Atoi value in
    match err with
    | Some _ => defaultValue
    | None => intValue
    end.

Definition getPagination (query : gmap string (list string)) : Pagination :=
  {| Limit := getQueryIntValue query "limit" 5;
     Offset := getQueryIntValue query "offset" 0 |}.

(** ** The database, as its driver answers *)

(** The destinations handed to [Scan]: a [*string], a [*sql.NullString]
    or a [*any]; and what [Scan] stores in them. *)
Inductive captureKind : Type := KString | KNullString | KAny.

Inductive capture : Type :=
| CString (s : string)
| CNullString (String_ : string) (Valid : bool)
| CAny (v : Value).

(** One row of a result set: what [Scan] stores in destinations of the
    given kinds, and the error it returns. *)
Record Row : Type := {
  Scan : list captureKind → list capture * option error
}.

(** [*sql.Rows]: [Next] lists the rows the cursor yields. *)
Record Rows : Type := {
  Columns : list string * option error;
  ColumnTypes : list ColumnType * option error;
  Next : list Row
}.

(** [*sql.Row], the result of [QueryRow]. *)
Record SingleRow : Type := {
  RowErr : option error;
  RowScan : list captureKind → list capture * option error
}.

(** [sql.Result] *)
Record Result : Type := {
  LastInsertId : Z * option error;
  RowsAffected : Z * option error
}.

(** [*sql.DB]: the answer of the engine to each statement and argument
    list. [Query] and [Exec] answer [inl err] when they fail. *)
Record sqlDB : Type := {
  Query : string → list Value → error + Rows;
  QueryRow : string → list Value → SingleRow;
  Exec : string → list Value → error + Result
}.

Record DbExplorer : Type := {
  DB : sqlDB;
  TableNames : list string;
  TableColumns : gmap string (list ColumnType);
  router : Router
}.

(** The string a [*string] destination holds after [Scan]: what [Scan]
    stored, or what it held before ([prev]) if [Scan] stored nothing. *)
Definition scannedString (prev : string) (captures : list capture) : string :=
  match captures with
  | CString s :: _ => s
  | _ => prev
  end.

(** The value [getItem] and [getTableItems] put in the record for a
    destination of kind [k]: for a [*sql.NullString] the string or [nil],
    for a [*any] what the driver stored. *)
Definition scannedValue (k : captureKind) (c : option capture) : Value :=
  match k, c with
  | KNullString, Some (CNullString s true) => VString s
  | KAny, Some (CAny v) => v
  | _, _ => VNil
  end.

Definition captureKindOf (c : ColumnType) : captureKind :=
  if isStringType (DatabaseTypeName c) then KNullString else KAny.

(** *** Schema catalog *)

Fixpoint scanTableNames (rows : list Row) (tableNames : list string)
    : list string * option error :=
  match rows with
  | [] => (tableNames, None)
  | row :: rest =>
    let '(captures, err) := Scan row [KString] in
    match err with
    | Some e => (tableNames, Some e)
    | None => scanTableNames rest (tableNames ++ [scannedString EmptyString captures])
    end
  end.

Definition getTableNames (exp : DbExplorer) : list string * option error :=
  let tableNames := [] in
  match Query (DB exp) "SHOW TABLES" [] with
  | inl err => (tableNames, None)
  | inr rows => scanTableNames (Next rows) tableNames
  end.

Definition getColumnTypes (exp : DbExplorer) (table : string)
    : list ColumnType * option error :=
  let res := [] in
  match Query (DB exp) ("SELECT * FROM " +:+ table +:+ " LIMIT 0") [] with
  | inl err => (res, Some err)
  | inr rows =>
    let '(columnTypes, err) := ColumnTypes rows in
    match err with
    | Some e => (res, Some e)
    | None => (columnTypes, None)
    end
  end.

(** [initTableColumns] fills the map [exp.TableColumns] in place and
    panics on the first table whose columns cannot be read. *)
Fixpoint initTableColumns (exp : DbExplorer) (tables : list string)
    (cache : gmap string (list ColumnType)) : result (gmap string (list ColumnType)) :=
  match tables with
  | [] => Return cache
  | table :: rest =>
    let '(columns, err) := getColumnTypes exp table in
    match err with
    | Some e => Panic (Error e)
    | None => initTableColumns exp rest (<[table := columns]> cache)
    end
  end.

Definition getColumnTypesFromCache (exp : DbExplorer) (table : string)
    : list ColumnType * option error :=
  match TableColumns exp !! table with
  | None => ([], Some (Errorf ("table=" +:+ table +:+ " doesnt have cache")))
  | Some columnTypes => (columnTypes, None)
  end.

Definition isValidTableName (exp : DbExplorer) (tableName : string) : bool :=
  existsb (fun name => String.eqb name tableName) (TableNames exp).

(** [strings.Split(s, sep)] for a one-byte separator. *)
Fixpoint Split (s : string) (sep : ascii) : list string :=
  match s with
  | EmptyString => [EmptyString]
  | String c rest =>
    if Ascii.eqb c sep then EmptyString :: Split rest sep
    else
      match Split rest sep with
      | part :: parts => String c part :: parts
      | [] => [String c EmptyString]
      end
  end.

(** [l[i]], panicking out of range. *)
Definition index {A : Type} (l : list A) (i : nat) : result A :=
  match l !! i with
  | Some x => Return x
  | None => Panic "runtime error: index out of range"
  end.

Definition getTableName (exp : DbExplorer) (url : string)
    : result (string * option error) :=
  tableName ← index (Split url "/") 1;
  if negb (isValidTableName exp tableName)
  then mret (EmptyString, Some (Errorf "unknown table"))
  else mret (tableName, None).

Definition getId (exp : DbExplorer) (url : string) : result string :=
  index (Split url "/") 2.

Fixpoint scanPrimaryKey (rows : list Row) (name : string) : string * option error :=
  match rows with
  | [] => (name, None)
  | row :: rest =>
    let '(captures, err) := Scan row [KString] in
    match err with
    | Some e => (EmptyString, Some e)
    | None => scanPrimaryKey rest (scannedString name captures)
    end
  end.

Definition getPrimaryKey (exp : DbExplorer) (table : string) : string * option error :=
  match Query (DB exp) ("SELECT COLUMN_NAME
    FROM INFORMATION_SCHEMA.KEY_COLUMN_USAGE
    WHERE TABLE_NAME = '" +:+ table +:+ "'
      AND CONSTRAINT_NAME = 'PRIMARY'
      AND TABLE_SCHEMA = DATABASE()") [] with
  | inl err => (EmptyString, Some err)
  | inr rows => scanPrimaryKey (Next rows) EmptyString
  end.

(** *** CRUD executor *)

(** [for k, v := range form { columnNames = append(columnNames, k);
    values = append(values, v) }], when the range visits the entries of
    the map in the order [kvs]. Go leaves the order of a map range
    unspecified, and two loops over one map may take different orders:
    what is proved of the lists and statements below is proved for every
    order [kvs] of the entries. *)
Definition rangeIn (kvs : list (string * Value)) : list string * list Value :=
  (kvs.*1, kvs.*2).

(** The range in the order of [map_to_list], one of the orders the loop
    may take; the handlers run with it. *)
Definition rangeForm (form : gmap string Value) : list string * list Value :=
  rangeIn (map_to_list form).

(** The part of [createItem] before [Exec], with the range taken in the
    order [kvs]: the columns it lists, the statement text and the bound
    arguments. *)
Definition createItemStatementIn (table : string) (kvs : list (string * Value))
    : list string * (string * list Value) :=
  let '(columnNames, values) := rangeIn kvs in
  let columnNamesQuery := String.concat ", " columnNames in
  let valuePlaceholders := replicate (length columnNames) "?" in
  let queryValuePlaceholder := String.concat ", " valuePlaceholders in
  (columnNames,
   ("INSERT INTO " +:+ table +:+ " (" +:+ columnNamesQuery +:+ ") VALUES ("
      +:+ queryValuePlaceholder +:+ ")",
    values)).

Definition createItemStatement (table : string) (form : gmap string Value)
    : list string * (string * list Value) :=
  createItemStatementIn table (map_to_list form).

Definition createItem (exp : DbExplorer) (table : string) (form : gmap string Value)
    (columns : list ColumnType) (primaryKey : string) : Value * option error :=
  let '(_, (query, values)) := createItemStatement table form in
  match Exec (DB exp) query values with
  | inl err => (VInt 0, Some err)
  | inr result =>
    let '(lastInsertId, err) := LastInsertId result in
    match err with
    | Some e => (VInt 0, Some e)
    | None => (VInt lastInsertId, None)
    end
  end.

(** The part of [updateItem] before [Exec], with the range taken in the
    order [kvs]. *)
Definition updateItemStatementIn (table : string) (kvs : list (string * Value))
    (primaryKey : string) (pkValue : Value) : list string * (string * list Value) :=
  let '(columnNames, values) := rangeIn kvs in
  let setColumnsQuery := (λ c, c +:+ " = ?") <$> columnNames in
  let setColumnsQueryJoined := String.concat ", " setColumnsQuery in
  let args := (values ++ [pkValue])%list in
  (columnNames,
   ("UPDATE " +:+ table +:+ " SET " +:+ setColumnsQueryJoined +:+ " WHERE "
      +:+ primaryKey +:+ " = ?",
    args)).

Definition updateItemStatement (table : string) (form : gmap string Value)
    (primaryKey : string) (pkValue : Value) : list string * (string * list Value) :=
  updateItemStatementIn table (map_to_list form) primaryKey pkValue.

Definition updateItem (exp : DbExplorer) (table : string) (form : gmap string Value)
    (columns : list ColumnType) (primaryKey : string) (pkValue : Value)
    : Z * option error :=
  let '(_, (query, args)) := updateItemStatement table form primaryKey pkValue in
  match Exec (DB exp) query args with
  | inl err => (0%Z, Some err)
  | inr result => RowsAffected result
  end.

Definition deleteItem (exp : DbExplorer) (table pkName : string) (pkValue : Value)
    : Z * option error :=
  match Exec (DB exp) ("DELETE FROM " +:+ table +:+ " WHERE " +:+ pkName +:+ "=?") [pkValue] with
  | inl err => (0%Z, Some err)
  | inr result =>
    let '(id, err) := RowsAffected result in
    match err with
    | Some e => (0%Z, Some e)
    | None => (id, None)
    end
  end.

(** [for i, v := range values { res[name i] = ... }] over the scanned
    destinations, [names] and [kinds] giving the key and the kind of each. *)
Fixpoint fillRecord (i : nat) (names : list string) (kinds : list captureKind)
    (captures : list capture) (res : gmap string Value) : gmap string Value :=
  match names, kinds with
  | name :: names', k :: kinds' =>
    fillRecord (S i) names' kinds' captures
      (<[name := scannedValue k (captures !! i)]> res)
  | _, _ => res
  end.

Definition getItem (exp : DbExplorer) (table pkName : string) (pkValue : Value)
    : gmap string Value * option error :=
  let res := ∅ in
  let query := "SELECT * FROM " +:+ table +:+ " WHERE " +:+ pkName +:+ " = ?" in
  let row := QueryRow (DB exp) query [pkValue] in
  match RowErr row with
  | Some e => (res, Some e)
  | None =>
    let '(columnTypes, err) := getColumnTypesFromCache exp table in
    match err with
    | Some e => (res, Some e)
    | None =>
      let values := captureKindOf <$> columnTypes in
      let '(captures, err) := RowScan row values in
      match err with
      | Some e => (res, Some e)
      | None => (fillRecord 0 (Name <$> columnTypes) values captures res, None)
      end
    end
  end.

(** The destinations [getTableItems] allocates for one row: one per
    column name, of the kind of [columnTypes[i]]. *)
Definition rowDestinations (columns : list string) (columnTypes : list ColumnType)
    : result (list captureKind) :=
  mapM (λ i, c ← index columnTypes i; mret (captureKindOf c)) (seq 0 (length columns)).

Fixpoint scanItems (rows : list Row) (columns : list string)
    (columnTypes : list ColumnType) (res : list (gmap string Value))
    : result (list (gmap string Value) * option error) :=
  match rows with
  | [] => Return (res, None)
  | row :: rest =>
    values ← rowDestinations columns columnTypes;
    let '(captures, err) := Scan row values in
    match err with
    | Some e => Return (res, Some e)
    | None =>
      scanItems rest columns columnTypes
        (res ++ [fillRecord 0 columns values captures ∅])
    end
  end.

Definition getTableItems (exp : DbExplorer) (table : string) (pagination : Pagination)
    : result (list (gmap string Value) * option error) :=
  let res := [] in
  match Query (DB exp) ("SELECT * FROM " +:+ table +:+ " LIMIT ? OFFSET ?")
          [VInt (Limit pagination); VInt (Offset pagination)] with
  | inl err => Return (res, Some err)
  | inr rows =>
    let '(columns, err) := Columns rows in
    match err with
    | Some e => Return (res, Some e)
    | None =>
      let '(columnTypes, err) := ColumnTypes rows in
      match err with
      | Some e => Return (res, Some e)
      | None => scanItems (Next rows) columns columnTypes res
      end
    end
  end.

(** *** Request handlers *)

(** [w.WriteHeader(status)] followed by at most one [w.Write]; a handler
    that only writes answers [StatusOK]. *)
Definition respond (status : Z) (b : body) : result ResponseWriter :=
  Return {| Status := status; Body := b |}.

Definition newline : string := String (ascii_of_nat 10) EmptyString.

(** [http.Error(w, msg, code)] *)
Definition httpError (msg : string) (code : Z) : result ResponseWriter :=
  respond code (PlainText (msg +:+ newline)).

Definition updateOptions : ValidationOptions :=
  {| IgnorePk := false; IgnoreNotProvidedField := true; WithDefaultValues := false |}.

Definition createOptions : ValidationOptions :=
  {| IgnorePk := true; IgnoreNotProvidedField := false; WithDefaultValues := true |}.

Definition handlerUpdateItem (exp : DbExplorer) (r : Request) : result ResponseWriter :=
  '(tableName, err) ← getTableName exp (ReqPath r);
  match err with
  | Some e => respond StatusNotFound (NewErrorResponse e)
  | None =>
    let '(columns, err) := getColumnTypesFromCache exp tableName in
    match err with
    | Some _ => respond StatusInternalServerError NoBody
    | None =>
      let '(primaryKey, err) := getPrimaryKey exp tableName in
      match err with
      | Some _ => respond StatusInternalServerError NoBody
      | None =>
        let '(form, err) := ReqBody r in
        match err with
        | Some e => httpError (Error e) StatusBadRequest
        | None =>
          id ← getId exp (ReqPath r);
          let '(newForm, err) := processForm form columns primaryKey updateOptions in
          match err with
          | Some e => respond StatusBadRequest (NewErrorResponse e)
          | None =>
            let '(pk, err) :=
              updateItem exp tableName newForm columns primaryKey (VString id) in
            match err with
            | Some _ => respond StatusBadRequest NoBody
            | None =>
              let updated := if (0 <? pk)%Z then 1%Z else 0%Z in
              respond StatusOK (Response (UpdateTableItemResponse updated))
            end
          end
        end
      end
    end
  end.

Definition handlerDeleteItem (exp : DbExplorer) (r : Request) : result ResponseWriter :=
  '(tableName, err) ← getTableName exp (ReqPath r);
  match err with
  | Some e => respond StatusNotFound (NewErrorResponse e)
  | None =>
    id ← getId exp (ReqPath r);
    let '(pkName, err) := getPrimaryKey exp tableName in
    match err with
    | Some _ => respond StatusInternalServerError NoBody
    | None =>
      let '(pk, err) := deleteItem exp tableName pkName (VString id) in
      match err with
      | Some _ => respond StatusInternalServerError NoBody
      | None =>
        let deleted := if (0 <? pk)%Z then 1%Z else 0%Z in
        respond StatusOK (Response (DeleteTableItemResponse deleted))
      end
    end
  end.

Definition handlerCreateItem (exp : DbExplorer) (r : Request) : result ResponseWriter :=
  '(tableName, err) ← getTableName exp (ReqPath r);
  match err with
  | Some e => respond StatusNotFound (NewErrorResponse e)
  | None =>
    let '(columns, err) := getColumnTypesFromCache exp tableName in
    match err with
    | Some _ => respond StatusInternalServerError NoBody
    | None =>
      let '(primaryKey, err) := getPrimaryKey exp tableName in
      match err with
      | Some _ => respond StatusInternalServerError NoBody
      | None =>
        let '(form, err) := ReqBody r in
        match err with
        | Some e => httpError (Error e) StatusBadRequest
        | None =>
          let '(newForm, err) := processForm form columns primaryKey createOptions in
          match err with
          | Some e => respond StatusBadRequest (NewErrorResponse e)
          | None =>
            let '(id, err) := createItem exp tableName newForm columns primaryKey in
            match err with
            | Some _ => respond StatusBadRequest NoBody
            | None => respond StatusOK (Response (ResultMap (<[primaryKey := id]> ∅)))
            end
          end
        end
      end
    end
  end.

Definition handlerGetTableNames (exp : DbExplorer) (r : Request) : result ResponseWriter :=
  respond StatusOK (Response (GetTableNamesResponse (TableNames exp))).

Definition handlerGetTableItems (exp : DbExplorer) (r : Request) : result ResponseWriter :=
  '(tableName, err) ← getTableName exp (ReqPath r);
  match err with
  | Some e => respond StatusNotFound (NewErrorResponse e)
  | None =>
    let pagination := getPagination (ReqQuery r) in
    '(items, err) ← getTableItems exp tableName pagination;
    match err with
    | Some _ => respond StatusInternalServerError NoBody
    | None => respond StatusOK (Response (GetTableItemsResponse items))
    end
  end.

Definition handlerGetTableItem (exp : DbExplorer) (r : Request) : result ResponseWriter :=
  '(tableName, err) ← getTableName exp (ReqPath r);
  match err with
  | Some e => respond StatusNotFound (NewErrorResponse e)
  | None =>
    pkValue ← getId exp (ReqPath r);
    let '(pkName, err) := getPrimaryKey exp tableName in
    match err with
    | Some _ => respond StatusInternalServerError NoBody
    | None =>
      let '(item, err) := getItem exp tableName pkName (VString pkValue) in
      match err with
      | Some _ => respond StatusNotFound (NewErrorResponse (Errorf "record not found"))
      | None => respond StatusOK (Response (GetTableItemResponse item))
      end
    end
  end.

(** *** Routes, constructor and dispatcher *)

Definition initRoutes (exp : DbExplorer) : result Router :=
  r ← Handle (router exp) MethodGet "/" (handlerGetTableNames exp);
  r ← Handle r MethodGet "/\w*" (handlerGetTableItems exp);
  r ← Handle r MethodGet "/\w*/[0-9]*" (handlerGetTableItem exp);
  r ← Handle r MethodPut "/\w*/" (handlerCreateItem exp);
  r ← Handle r MethodDelete "/\w*/[0-9]*" (handlerDeleteItem exp);
  Handle r MethodPost "/\w*/[0-9]*" (handlerUpdateItem exp).

Definition NewDbExplorer (db : sqlDB) : result (DbExplorer * option error) :=
  let explorer :=
    {| DB := db; TableNames := []; TableColumns := ∅; router := NewRouter |} in
  let '(tableNames, err) := getTableNames explorer in
  match err with
  | Some e => Return (explorer, Some e)
  | None =>
    let explorer :=
      {| DB := db; TableNames := tableNames; TableColumns := TableColumns explorer;
         router := router explorer |} in
    cache ← initTableColumns explorer (TableNames explorer) (TableColumns explorer);
    let explorer :=
      {| DB := db; TableNames := tableNames; TableColumns := cache;
         router := router explorer |} in
    r ← initRoutes explorer;
    mret ({| DB := db; TableNames := tableNames; TableColumns := cache; router := r |},
          None)
  end.

Definition ServeHTTP (exp : DbExplorer) (r : Request) : result ResponseWriter :=
  serve (routes (router exp)) r.

(** ** Notions used to state the properties *)

(** The three kind mismatches of the type switch in [processForm]: a
    number for a column that is not numeric, a string for a column that is
    not a string column, [nil] for a column that is not nullable. *)
Definition kindMismatch (value : Value) (c : ColumnType) : Prop :=
  ((∃ f, value = VFloat64 f) ∧ isNumberType (DatabaseTypeName c) = false)
  ∨ ((∃ s, value = VString s) ∧ isStringType (DatabaseTypeName c) = false)
  ∨ (value = VNil ∧ (Nullable c).1 = false).

(** A request to [handlerCreateItem] or [handlerUpdateItem] gets as far as
    the validator, with these arguments. *)
Definition reachesValidator (exp : DbExplorer) (r : Request) (table : string)
    (columns : list ColumnType) (primaryKey : string) (form : gmap string Value)
    : Prop :=
  getTableName exp (ReqPath r) = Return (table, None)
  ∧ getColumnTypesFromCache exp table = (columns, None)
  ∧ getPrimaryKey exp table = (primaryKey, None)
  ∧ ReqBody r = (form, None).

(** A route applies to a request: same method, and the pattern matches
    the whole path. *)
Definition applies (route : Route) (r : Request) : Prop :=
  Method route = ReqMethod r ∧ MatchString (Pattern route) (ReqPath r) = true.

(** ** A sample schema and engine *)

(** One table, [users(id, name, info, age)], and an engine that answers
    the catalog queries for it; used to run the definitions on concrete
    inputs. *)
Definition idColumn : ColumnType :=
  {| Name := "id"; DatabaseTypeName := "NUMBER"; Nullable := (false, true) |}.
Definition nameColumn : ColumnType :=
  {| Name := "name"; DatabaseTypeName := "VARCHAR"; Nullable := (false, true) |}.
Definition infoColumn : ColumnType :=
  {| Name := "info"; DatabaseTypeName := "TEXT"; Nullable := (true, true) |}.
Definition ageColumn : ColumnType :=
  {| Name := "age"; DatabaseTypeName := "NUMBER"; Nullable := (false, true) |}.

Definition usersColumns : list ColumnType :=
  [idColumn; nameColumn; infoColumn; ageColumn].

Definition stringRow (s : string) : Row :=
  {| Scan := λ _, ([CString s], None) |}.

Definition usersDB : sqlDB :=
  {| Query := λ query _,
       if String.eqb query "SHOW TABLES" then
         inr {| Columns := (["Tables_in_db"], None); ColumnTypes := ([], None);
                Next := [stringRow "users"] |}
       else if String.prefix "SELECT COLUMN_NAME" query then
         inr {| Columns := (["COLUMN_NAME"], None); ColumnTypes := ([], None);
                Next := [stringRow "id"] |}
       else
         inr {| Columns := (Name <$> usersColumns, None);
                ColumnTypes := (usersColumns, None); Next := [] |};
     QueryRow := λ _ _,
       {| RowErr := None;
          RowScan := λ _, ([], Some (Errorf "sql: no rows in result set")) |};
     Exec := λ _ _, inr {| LastInsertId := (1%Z, None); RowsAffected := (1%Z, None) |} |}.

(** An engine that fails every statement. *)
Definition unreachableDB : sqlDB :=
  {| Query := λ _ _, inl (Errorf "dial tcp: connection refused");
     QueryRow := λ _ _,
       {| RowErr := Some (Errorf "dial tcp: connection refused");
          RowScan := λ _, ([], Some (Errorf "dial tcp: connection refused")) |};
     Exec := λ _ _, inl (Errorf "dial tcp: connection refused") |}.

Definition usersExplorer : DbExplorer :=
  {| DB := usersDB; TableNames := ["users"];
     TableColumns := {["users" := usersColumns]}; router := NewRouter |}.

Definition createRequest (form : gmap string Value) : Request :=
  {| ReqMethod := MethodPut; ReqPath := "/users/"; ReqQuery := ∅;
     ReqBody := (form, None) |}.

Definition updateRequest (form : gmap string Value) : Request :=
  {| ReqMethod := MethodPost; ReqPath := "/users/1"; ReqQuery := ∅;
     ReqBody := (form, None) |}.

Definition getRequest (path : string) : Request :=
  {| ReqMethod := MethodGet; ReqPath := path; ReqQuery := ∅; ReqBody := (∅, None) |}.

(** [usersExplorer] once [initRoutes] has registered its routes. *)
Definition servingExplorer : DbExplorer :=
  {| DB := usersDB; TableNames := ["users"];
     TableColumns := {["users" := usersColumns]};
     router := match initRoutes usersExplorer with
               | Return r => r
               | Panic _ => NewRouter
               end |}.

(** The JSON number [7]. *)
Definition seven : Value := VFloat64 (S754_finite false 7 0).

(** ** Notions used to state further properties *)

(** Every character of [s] satisfies [p]. *)
Fixpoint allChars (p : ascii → bool) (s : string) : bool :=
  match s with
  | EmptyString => true
  | String c s' => p c && allChars p s'
  end.

(** What one turn of the loop of [processForm] needs of its column in
    order not to return: the driver reports the nullability; the primary
    key is not submitted, or is ignored; a submitted value has no kind
    mismatch; a missing value is ignored, or the column is nullable, or
    defaults are substituted. *)
Definition columnAccepted (form : gmap string Value) (primaryKey : string)
    (opts : ValidationOptions) (c : ColumnType) : Prop :=
  (Nullable c).2 = true
  ∧ (Name c = primaryKey → form !! Name c = None ∨ IgnorePk opts = true)
  ∧ (Name c ≠ primaryKey → ∀ v, form !! Name c = Some v → ¬ kindMismatch v c)
  ∧ (Name c ≠ primaryKey → form !! Name c = None →
     IgnoreNotProvidedField opts = true ∨ (Nullable c).1 = true
     ∨ WithDefaultValues opts = true).

(** [rows.Scan(&name)] succeeds on this row; the name it stores. *)
Definition scansString (row : Row) : Prop := (Scan row [KString]).2 = None.

Definition scannedName (row : Row) : string :=
  scannedString EmptyString (Scan row [KString]).1.

(** The explorer [NewDbExplorer] starts from. *)
Definition newExplorer (db : sqlDB) : DbExplorer :=
  {| DB := db; TableNames := []; TableColumns := ∅; router := NewRouter |}.

(** ** More sample engines *)

Definition failingRow : Row :=
  {| Scan := λ _, ([], Some (Errorf "sql: Scan error on column index 0")) |}.

(** The listing yields [users] and [orders]; the columns of [orders]
    cannot be read. *)
Definition brokenColumnsDB : sqlDB :=
  {| Query := λ query _,
       if String.eqb query "SHOW TABLES" then
         inr {| Columns := (["Tables_in_db"], None); ColumnTypes := ([], None);
                Next := [stringRow "users"; stringRow "orders"] |}
       else if String.eqb query "SELECT * FROM users LIMIT 0" then
         inr {| Columns := (Name <$> usersColumns, None);
                ColumnTypes := (usersColumns, None); Next := [] |}
       else inl (Errorf "Error 1142: SELECT command denied");
     QueryRow := QueryRow usersDB;
     Exec := Exec usersDB |}.

(** The second row of the listing cannot be scanned. *)
Definition brokenListingDB : sqlDB :=
  {| Query := λ query _,
       if String.eqb query "SHOW TABLES" then
         inr {| Columns := (["Tables_in_db"], None); ColumnTypes := ([], None);
                Next := [stringRow "users"; failingRow; stringRow "orders"] |}
       else Query usersDB query [];
     QueryRow := QueryRow usersDB;
     Exec := Exec usersDB |}.

(** Two stored users; the [info] of the first is NULL. *)
Definition bobRow : Row :=
  {| Scan := λ _,
       ([CAny (VInt 1); CNullString "bob" true; CNullString EmptyString false;
         CAny (VInt 30)], None) |}.

Definition annRow : Row :=
  {| Scan := λ _,
       ([CAny (VInt 2); CNullString "ann" true; CNullString "admin" true;
         CAny (VInt 41)], None) |}.

Definition storedDB : sqlDB :=
  {| Query := λ query args,
       if String.eqb query "SELECT * FROM users LIMIT ? OFFSET ?" then
         inr {| Columns := (Name <$> usersColumns, None);
                ColumnTypes := (usersColumns, None); Next := [bobRow; annRow] |}
       else Query usersDB query args;
     QueryRow := λ _ _, {| RowErr := None; RowScan := Scan bobRow |};
     Exec := Exec usersDB |}.

Definition storedExplorer : DbExplorer :=
  {| DB := storedDB; TableNames := ["users"];
     TableColumns := {["users" := usersColumns]}; router := NewRouter |}.

Definition request (method path : string) : Request :=
  {| ReqMethod := method; ReqPath := path; ReqQuery := ∅; ReqBody := (∅, None) |}.

(** An engine whose key-constraint query (as every query) yields [rows];
    every statement it executes affects [affected] rows. *)
Definition keyRowsDB (rows : list Row) (affected : Z) : sqlDB :=
  {| Query := λ _ _,
       inr {| Columns := (["COLUMN_NAME"], None); ColumnTypes := ([], None);
              Next := rows |};
     QueryRow := QueryRow usersDB;
     Exec := λ _ _, inr {| LastInsertId := (0%Z, None); RowsAffected := (affected, None) |} |}.

Definition keyRowsExplorer (tables : list string) (rows : list Row) (affected : Z)
    : DbExplorer :=
  {| DB := keyRowsDB rows affected; TableNames := tables; TableColumns := ∅;
     router := NewRouter |}.

(** A submission of two fields, and two orders in which a range may
    visit it. *)
Definition twoFields : gmap string Value := {["name" := VString "bo"; "age" := seven]}.

Definition nameFirst : list (string * Value) := [("name", VString "bo"); ("age", seven)].

Definition ageFirst : list (string * Value) := [("age", seven); ("name", VString "bo")].

(** * Properties *)

(** ** The validator loop *)

Section validator.
Context (primaryKey : string) (opts : ValidationOptions).

Lemma processColumns_app form pre post newForm :
  processColumns form (pre ++ post) primaryKey opts newForm =
  match processColumns form pre primaryKey opts newForm with
  | (m, None) => processColumns form post primaryKey opts m
  | (m, Some e) => (m, Some e)
  end.
Proof.
  revert newForm. induction pre as [|c pre IH]; intros newForm; [done|].
  cbn [app processColumns].
  destruct (Nullable c) as [nullable ok].
  repeat (case_match; try done).
Qed.

(** Keys that name none of the remaining columns keep what they hold,
    and so does the primary key. *)
Lemma processColumns_frame form columns newForm k :
  (k = primaryKey ∨ k ∉ Name <$> columns) →
  (processColumns form columns primaryKey opts newForm).1 !! k = newForm !! k.
Proof.
  revert newForm. induction columns as [|c columns IH]; intros newForm Hk; [done|].
  rewrite fmap_cons, not_elem_of_cons in Hk.
  assert (k = primaryKey ∨ k ∉ Name <$> columns) as Hk' by tauto.
  assert (Name c ≠ primaryKey → Name c ≠ k) as Hne.
  { intros Hpk Heq. destruct Hk as [Hk|[Hk _]]; congruence. }
  cbn [processColumns]. destruct (Nullable c) as [nullable ok].
  repeat case_match; try done; rewrite IH; try done; rewrite lookup_insert_ne; auto.
Qed.

Lemma processColumns_keys form columns newForm k :
  is_Some ((processColumns form columns primaryKey opts newForm).1 !! k) →
  is_Some (newForm !! k) ∨ k ∈ Name <$> columns.
Proof.
  intros Hk. destruct (decide (k ∈ Name <$> columns)); [by right|left].
  by rewrite processColumns_frame in Hk by by right.
Qed.


(** A submitted value once copied stays: a later write to its key
    writes the same value again. *)
Lemma processColumns_keep form columns newForm k v :
  form !! k = Some v → newForm !! k = Some v →
  (processColumns form columns primaryKey opts newForm).1 !! k = Some v.
Proof.
  revert newForm. induction columns as [|c columns IH]; intros newForm Hform Hnew; [done|].
  cbn [processColumns]. destruct (Nullable c) as [nullable ok].
  repeat case_match; simplify_eq; cbn [fst]; try done; try (by apply IH);
    apply IH; try done;
    (destruct (decide (Name c = k)) as [<-|?];
      [ simplify_eq; by rewrite ?lookup_insert_eq | by rewrite lookup_insert_ne ]).
Qed.

End validator.

(** ** Column by column *)

(** Once the columns of [pre] are accepted, the loop is at the column that
    follows them, with the map built so far. *)
Lemma processForm_prefix form pre post primaryKey opts m0 :
  processForm form pre primaryKey opts = (m0, None) →
  processForm form (pre ++ post) primaryKey opts =
  processColumns form post primaryKey opts m0.
Proof.
  unfold processForm. intros Hpre. by rewrite processColumns_app, Hpre.
Qed.

(** A column that the loop rejects whatever map it has built makes the
    whole validation fail, wherever it stands in the catalog. *)
Lemma processColumns_fails_at form columns c primaryKey opts newForm :
  c ∈ columns →
  (∀ m, is_Some (processColumns form [c] primaryKey opts m).2) →
  is_Some (processColumns form columns primaryKey opts newForm).2.
Proof.
  intros Hc Hfail. apply list_elem_of_split in Hc as (pre & post & ->).
  rewrite processColumns_app.
  destruct (processColumns form pre primaryKey opts newForm) as [m [e|]]; [by eexists|].
  change (c :: post) with ([c] ++ post)%list. rewrite processColumns_app.
  specialize (Hfail m).
  destruct (processColumns form [c] primaryKey opts m) as [m' [e|]]; [by eexists|].
  by destruct Hfail.
Qed.

(** The two handlers that validate answer a failed validation with
    [StatusBadRequest] and the error's text. *)
Lemma handlerCreateItem_invalid exp r table columns primaryKey form m e :
  reachesValidator exp r table columns primaryKey form →
  processForm form columns primaryKey createOptions = (m, Some e) →
  handlerCreateItem exp r = respond StatusBadRequest (ErrorResponse (Error e)).
Proof.
  intros (Htable & Hcols & Hpk & Hbody) Hform. unfold handlerCreateItem.
  rewrite Htable. cbn. by rewrite Hcols, Hpk, Hbody, Hform.
Qed.

Lemma handlerUpdateItem_invalid exp r table columns primaryKey form id m e :
  reachesValidator exp r table columns primaryKey form →
  getId exp (ReqPath r) = Return id →
  processForm form columns primaryKey updateOptions = (m, Some e) →
  handlerUpdateItem exp r = respond StatusBadRequest (ErrorResponse (Error e)).
Proof.
  intros (Htable & Hcols & Hpk & Hbody) Hid Hform. unfold handlerUpdateItem.
  rewrite Htable. cbn. rewrite Hcols, Hpk, Hbody, Hid. cbn. by rewrite Hform.
Qed.

(** The type switch accepts exactly the values without a kind mismatch. *)
Lemma kind_accepted value c :
  ¬ kindMismatch value c →
  match value with
  | VFloat64 _ => isNumberType (DatabaseTypeName c)
  | VString _ => isStringType (DatabaseTypeName c)
  | VNil => (Nullable c).1
  | _ => true
  end = true.
Proof.
  intros Hok. destruct value; try done; apply not_false_iff_true; intros Hfalse;
    apply Hok; unfold kindMismatch; eauto 6.
Qed.

Lemma kind_rejected value c :
  kindMismatch value c →
  match value with
  | VFloat64 _ => isNumberType (DatabaseTypeName c)
  | VString _ => isStringType (DatabaseTypeName c)
  | VNil => (Nullable c).1
  | _ => true
  end = false.
Proof. by intros [[[? ->] ?]|[[[? ->] ?]|[-> ?]]]. Qed.

(** The loop at a submitted column that is not the primary key. *)
Lemma processColumns_submitted form c post primaryKey opts m0 nullable value :
  Nullable c = (nullable, true) →
  Name c ≠ primaryKey →
  form !! Name c = Some value →
  processColumns form (c :: post) primaryKey opts m0 =
  if match value with
     | VFloat64 _ => isNumberType (DatabaseTypeName c)
     | VString _ => isStringType (DatabaseTypeName c)
     | VNil => nullable
     | _ => true
     end
  then processColumns form post primaryKey opts (<[Name c := value]> m0)
  else (m0, Some (ValidationError (Name c))).
Proof.
  intros Hnull Hpk Hform. cbn [processColumns]. rewrite Hnull. cbn [negb].
  rewrite decide_False by done. rewrite Hform.
  destruct value; try done;
    [by destruct nullable|by destruct (isNumberType _)|by destruct (isStringType _)].
Qed.

(** C1 (amended). A submitted value for a column that is not the primary
    key, whose kind mismatches the column (a number for a non-numeric
    column, a string for a non-string column, nil for a non-nullable
    column), makes validation fail. The loop returns at the first rejected
    column: the failure is the [ValidationError] of that very column when
    the driver reports its nullability and no column before it in the
    catalog is rejected, and then both validating handlers answer 400 with
    the error text [field <name> have invalid type]. Under the same
    proviso a submitted value without a mismatch is copied unchanged into
    the sanitized map. *)
Theorem processForm_kind_check :
  (∀ form columns primaryKey opts c value,
     c ∈ columns →
     Name c ≠ primaryKey →
     form !! Name c = Some value →
     kindMismatch value c →
     is_Some (processForm form columns primaryKey opts).2)
  ∧ (∀ form pre c post primaryKey opts value m0,
     Name c ≠ primaryKey →
     form !! Name c = Some value →
     (Nullable c).2 = true →
     processForm form pre primaryKey opts = (m0, None) →
     (kindMismatch value c →
        processForm form (pre ++ c :: post) primaryKey opts
          = (m0, Some (ValidationError (Name c)))
        ∧ (∀ exp r table,
             opts = createOptions →
             reachesValidator exp r table (pre ++ c :: post) primaryKey form →
             handlerCreateItem exp r =
               respond StatusBadRequest
                 (ErrorResponse ("field " +:+ Name c +:+ " have invalid type")))
        ∧ (∀ exp r table id,
             opts = updateOptions →
             reachesValidator exp r table (pre ++ c :: post) primaryKey form →
             getId exp (ReqPath r) = Return id →
             handlerUpdateItem exp r =
               respond StatusBadRequest
                 (ErrorResponse ("field " +:+ Name c +:+ " have invalid type"))))
     ∧ (¬ kindMismatch value c →
        (processForm form (pre ++ c :: post) primaryKey opts).1 !! Name c
          = Some value)).
Proof.
  split.
  - intros form columns primaryKey opts c value Hc Hpk Hform Hbad.
    apply processColumns_fails_at with c; [done|]. intros m.
    destruct (Nullable c) as [nullable [|]] eqn:Hnull.
    + rewrite (processColumns_submitted _ _ _ _ _ _ _ _ Hnull Hpk Hform).
      apply kind_rejected in Hbad. rewrite Hnull in Hbad. cbn [fst] in Hbad.
      rewrite Hbad. by eexists.
    + cbn [processColumns]. rewrite Hnull. by eexists.
  - intros form pre c post primaryKey opts value m0 Hpk Hform Hok Hpre.
    destruct (Nullable c) as [nullable ok] eqn:Hnull. cbn in Hok. subst ok.
    pose proof (processForm_prefix form pre (c :: post) primaryKey opts m0 Hpre) as Hrun.
    rewrite (processColumns_submitted _ _ _ _ _ _ _ _ Hnull Hpk Hform) in Hrun.
    split.
    + intros Hbad. apply kind_rejected in Hbad. rewrite Hnull in Hbad. cbn [fst] in Hbad.
      rewrite Hbad in Hrun. split; [done|split].
      * intros exp r table -> Hreach.
        by rewrite (handlerCreateItem_invalid _ _ _ _ _ _ _ _ Hreach Hrun).
      * intros exp r table id -> Hreach Hid.
        by rewrite (handlerUpdateItem_invalid _ _ _ _ _ _ _ _ _ Hreach Hid Hrun).
    + intros Hgood. apply kind_accepted in Hgood. rewrite Hnull in Hgood.
      cbn [fst] in Hgood. rewrite Hgood in Hrun. rewrite Hrun.
      apply processColumns_keep; [done|apply lookup_insert_eq].
Qed.

(** A number submitted for the VARCHAR column [name] of [users]. *)
Lemma processForm_kind_check_witness :
  processForm {["name" := seven]} usersColumns "id" createOptions
    = (∅, Some (ValidationError "name"))
  ∧ handlerCreateItem usersExplorer (createRequest {["name" := seven]})
    = respond StatusBadRequest (ErrorResponse "field name have invalid type").
Proof.
  assert (kindMismatch seven nameColumn) as Hbad.
  { left. split; [by eexists|reflexivity]. }
  destruct processForm_kind_check as [_ Hcheck].
  destruct (Hcheck {["name" := seven]} [idColumn] nameColumn
              [infoColumn; ageColumn] "id" createOptions seven ∅)
    as [Hreject _]; [done|reflexivity|reflexivity|reflexivity|].
  destruct (Hreject Hbad) as (Hrun & Hcreate & _).
  split; [exact Hrun|].
  apply (Hcreate usersExplorer (createRequest {["name" := seven]}) "users"); [done|].
  repeat split; reflexivity.
Defined.

(** C1, as stated, fails where an earlier column is rejected. An update
    that submits [id] together with a string for the NUMBER column [age]:
    the failure names [id], rejected as a submitted primary key, and not
    [age], the column whose value has the wrong kind. *)
Lemma kind_mismatch_reports_first_rejected_column :
  let form : gmap string Value := {["id" := seven; "age" := VString "old"]} in
  ageColumn ∈ usersColumns
  ∧ Name ageColumn ≠ "id"
  ∧ form !! Name ageColumn = Some (VString "old")
  ∧ kindMismatch (VString "old") ageColumn
  ∧ (processForm form usersColumns "id" updateOptions).2
      = Some (ValidationError "id")
  ∧ (processForm form usersColumns "id" updateOptions).2
      ≠ Some (ValidationError (Name ageColumn)).
Proof.
  cbn zeta. split; [|split; [done|split; [reflexivity|split; [|split]]]].
  - unfold usersColumns. rewrite !elem_of_cons. tauto.
  - right. left. split; [by eexists|reflexivity].
  - reflexivity.
  - by vm_compute.
Qed.

(** ** Missing fields *)

Lemma getDefaultValue_cases dbTypeName :
  (isNumberType dbTypeName = true → getDefaultValue dbTypeName = VInt 0)
  ∧ (isNumberType dbTypeName = false → isStringType dbTypeName = true →
     getDefaultValue dbTypeName = VString EmptyString)
  ∧ (isNumberType dbTypeName = false → isStringType dbTypeName = false →
     getDefaultValue dbTypeName = VBool false).
Proof. unfold getDefaultValue. repeat split; intros; by repeat case_match. Qed.

(** C2 (amended). With [IgnoreNotProvidedField] false, take a column
    other than the primary key that has no submitted value. If it is not
    nullable and [WithDefaultValues] is false, validation fails. In a
    catalog of distinct column names, when the driver reports the column's
    nullability and no column before it is rejected: if it is nullable, it
    is nil in the sanitized map; if it is not nullable and
    [WithDefaultValues] is true, it holds the type default (the integer 0
    for a numeric column, the empty string for a string column, false for
    any other); if it is not nullable and [WithDefaultValues] is false, the
    failure is the [ValidationError] of that column. The primary-key column
    is skipped instead: whatever the catalog, the options and the
    submitted map, the sanitized map holds nothing under the primary key,
    so neither nil nor a default; and where the loop reaches a
    primary-key column that has no submitted value and whose nullability
    the driver reports, it goes on to the columns after it with the map
    as it was built so far. *)
Theorem processForm_missing_field :
  (∀ form columns primaryKey opts c,
     IgnoreNotProvidedField opts = false →
     WithDefaultValues opts = false →
     c ∈ columns →
     Name c ≠ primaryKey →
     form !! Name c = None →
     (Nullable c).1 = false →
     is_Some (processForm form columns primaryKey opts).2)
  ∧ (∀ form pre c post primaryKey opts m0,
     IgnoreNotProvidedField opts = false →
     Name c ≠ primaryKey →
     form !! Name c = None →
     (Nullable c).2 = true →
     NoDup (Name <$> (pre ++ c :: post)%list) →
     processForm form pre primaryKey opts = (m0, None) →
     ((Nullable c).1 = true →
        (processForm form (pre ++ c :: post) primaryKey opts).1 !! Name c = Some VNil)
     ∧ ((Nullable c).1 = false → WithDefaultValues opts = true →
        (processForm form (pre ++ c :: post) primaryKey opts).1 !! Name c
          = Some (getDefaultValue (DatabaseTypeName c))
        ∧ (isNumberType (DatabaseTypeName c) = true →
           getDefaultValue (DatabaseTypeName c) = VInt 0)
        ∧ (isNumberType (DatabaseTypeName c) = false →
           isStringType (DatabaseTypeName c) = true →
           getDefaultValue (DatabaseTypeName c) = VString EmptyString)
        ∧ (isNumberType (DatabaseTypeName c) = false →
           isStringType (DatabaseTypeName c) = false →
           getDefaultValue (DatabaseTypeName c) = VBool false))
     ∧ ((Nullable c).1 = false → WithDefaultValues opts = false →
        processForm form (pre ++ c :: post) primaryKey opts
          = (m0, Some (ValidationError (Name c)))))
  ∧ (∀ form columns primaryKey opts,
     (processForm form columns primaryKey opts).1 !! primaryKey = None)
  ∧ (∀ form pre c post opts m0,
     form !! Name c = None →
     (Nullable c).2 = true →
     processForm form pre (Name c) opts = (m0, None) →
     processForm form (pre ++ c :: post) (Name c) opts
       = processColumns form post (Name c) opts m0).
Proof.
  split; [|split; [|split]].
  - intros form columns primaryKey opts c Hmissing Hdefaults Hc Hpk Hform Hnull.
    apply processColumns_fails_at with c; [done|]. intros m.
    cbn [processColumns]. destruct (Nullable c) as [nullable ok]. cbn in Hnull. subst.
    destruct ok; cbn [negb]; [|by eexists].
    rewrite decide_False by done. rewrite Hform, Hmissing, Hdefaults. by eexists.
  - intros form pre c post primaryKey opts m0 Hmissing Hpk Hform Hok Hnodup Hpre.
    rewrite (processForm_prefix _ _ _ _ _ _ Hpre). cbn [processColumns].
    destruct (Nullable c) as [nullable ok] eqn:Hnull. cbn in Hok. subst ok.
    cbn [negb fst]. rewrite decide_False by done. rewrite Hform, Hmissing.
    assert (Name c ∉ Name <$> post) as Hfresh.
    { rewrite fmap_app, fmap_cons in Hnodup.
      apply NoDup_app in Hnodup as (_ & _ & Hnodup).
      by apply NoDup_cons in Hnodup as [? _]. }
    split; [|split].
    + intros ->. cbn [negb]. rewrite processColumns_frame by by right.
      apply lookup_insert_eq.
    + intros -> ->. cbn [negb]. split; [|apply getDefaultValue_cases].
      rewrite processColumns_frame by by right. apply lookup_insert_eq.
    + by intros -> ->.
  - intros form columns primaryKey opts. unfold processForm.
    rewrite processColumns_frame by by left. apply lookup_empty.
  - intros form pre c post opts m0 Hform Hok Hpre.
    rewrite (processForm_prefix _ _ _ _ _ _ Hpre). cbn [processColumns].
    destruct (Nullable c) as [nullable ok]. cbn in Hok. subst ok. cbn [negb].
    rewrite decide_True by done. rewrite Hform.
    by rewrite bool_decide_false by by intros [? ?].
Qed.

(** Creating a user from a name alone: [info] becomes nil, [age] the
    integer 0; at [id], the first column, the loop goes on to the other
    three with the empty map. *)
Lemma processForm_missing_field_witness :
  let sanitized :=
    (processForm {["name" := VString "bob"]} usersColumns "id" createOptions).1 in
  sanitized !! "info" = Some VNil ∧ sanitized !! "age" = Some (VInt 0)
  ∧ processForm {["name" := VString "bob"]} usersColumns "id" createOptions
    = processColumns {["name" := VString "bob"]} [nameColumn; infoColumn; ageColumn]
        "id" createOptions ∅.
Proof.
  assert (NoDup (Name <$> usersColumns)) as Hnodup.
  { cbn. repeat (apply NoDup_cons; split;
      [rewrite ?elem_of_cons, elem_of_nil; intros ?; intuition discriminate|]).
    apply NoDup_nil_2. }
  destruct processForm_missing_field as (_ & Hmissing & _ & Hskip).
  cbn zeta. split; [|split].
  - refine (proj1 (Hmissing {["name" := VString "bob"]}
      [idColumn; nameColumn] infoColumn [ageColumn] "id" createOptions
      {["name" := VString "bob"]} _ _ _ _ Hnodup _) _); done || reflexivity.
  - refine (proj1 (proj1 (proj2 (Hmissing {["name" := VString "bob"]}
      [idColumn; nameColumn; infoColumn] ageColumn [] "id" createOptions
      {["info" := VNil; "name" := VString "bob"]} _ _ _ _ Hnodup _)) _ _));
      done || reflexivity.
  - apply (Hskip {["name" := VString "bob"]} [] idColumn
             [nameColumn; infoColumn; ageColumn] createOptions ∅); reflexivity.
Defined.

(** C2, as stated, fails at the primary key. On create, [id] has no
    submitted value and is not nullable, and [WithDefaultValues] is true:
    validation succeeds and [id] is absent from the sanitized map. *)
Lemma missing_primary_key_gets_no_default :
  let form : gmap string Value := {["name" := VString "bob"; "age" := seven]} in
  let result := processForm form usersColumns "id" createOptions in
  idColumn ∈ usersColumns
  ∧ IgnoreNotProvidedField createOptions = false
  ∧ WithDefaultValues createOptions = true
  ∧ form !! Name idColumn = None
  ∧ Nullable idColumn = (false, true)
  ∧ result.2 = None
  ∧ result.1 !! Name idColumn = None
  ∧ result.1 !! Name idColumn ≠ Some (getDefaultValue (DatabaseTypeName idColumn)).
Proof.
  cbn zeta. split; [apply list_elem_of_here|]. repeat split; try reflexivity.
  by vm_compute.
Qed.

(** ** The primary key *)

Lemma processColumns_drop_pk form columns primaryKey opts newForm :
  IgnorePk opts = true →
  processColumns form columns primaryKey opts newForm =
  processColumns (delete primaryKey form) columns primaryKey opts newForm.
Proof.
  intros Hignore. revert newForm.
  induction columns as [|c columns IH]; intros newForm; [done|].
  cbn [processColumns]. rewrite Hignore. cbn [negb]. rewrite !andb_false_r.
  destruct (Nullable c) as [nullable ok]. destruct (negb ok); [done|].
  destruct (decide (Name c = primaryKey)) as [Heq|Hne]; [apply IH|].
  rewrite lookup_delete_ne by done.
  repeat case_match; try done; apply IH.
Qed.

(** C3 (amended). With [IgnorePk] false (the update policy), a submitted
    value for the primary-key column makes validation fail; the failure is
    the [ValidationError] of the primary key when the driver reports the
    column's nullability and no column before it in the catalog is
    rejected (the loop returns at the first rejected column). With
    [IgnorePk] true (the create policy) the submitted primary-key value is
    dropped: validation runs as on the map without it. In every case the
    sanitized map has no entry for the primary key. *)
Theorem processForm_primary_key :
  (∀ form columns c opts v,
     IgnorePk opts = false →
     c ∈ columns →
     form !! Name c = Some v →
     is_Some (processForm form columns (Name c) opts).2)
  ∧ (∀ form pre c post opts m0 v,
     IgnorePk opts = false →
     form !! Name c = Some v →
     (Nullable c).2 = true →
     processForm form pre (Name c) opts = (m0, None) →
     processForm form (pre ++ c :: post) (Name c) opts
       = (m0, Some (ValidationError (Name c))))
  ∧ (∀ form columns primaryKey opts,
       IgnorePk opts = true →
       processForm form columns primaryKey opts
         = processForm (delete primaryKey form) columns primaryKey opts)
  ∧ (∀ form columns primaryKey opts,
       (processForm form columns primaryKey opts).1 !! primaryKey = None)
  ∧ IgnorePk updateOptions = false ∧ IgnorePk createOptions = true.
Proof.
  split; [|split; [|split; [|split; [|done]]]].
  - intros form columns c opts v Hignore Hc Hform.
    apply processColumns_fails_at with c; [done|]. intros m.
    cbn [processColumns]. destruct (Nullable c) as [nullable [|]]; [|by eexists].
    cbn [negb]. rewrite decide_True by done. rewrite Hform, Hignore.
    rewrite bool_decide_true by done. by eexists.
  - intros form pre c post opts m0 v Hignore Hform Hok Hpre.
    rewrite (processForm_prefix _ _ _ _ _ _ Hpre). cbn [processColumns].
    destruct (Nullable c) as [nullable ok]. cbn in Hok. subst ok. cbn [negb].
    rewrite decide_True by done. rewrite Hform, Hignore.
    by rewrite bool_decide_true by done.
  - intros form columns primaryKey opts Hignore. by apply processColumns_drop_pk.
  - intros form columns primaryKey opts. unfold processForm.
    by rewrite processColumns_frame by by left.
Qed.

(** An update that submits [id]; a create that submits [id]. *)
Lemma processForm_primary_key_witness :
  processForm {["id" := seven]} usersColumns "id" updateOptions
    = (∅, Some (ValidationError "id"))
  ∧ processForm {["id" := seven; "name" := VString "bob"]} usersColumns "id" createOptions
    = processForm {["name" := VString "bob"]} usersColumns "id" createOptions.
Proof.
  destruct processForm_primary_key as (_ & Hreject & Hdrop & _).
  split.
  - apply (Hreject {["id" := seven]} [] idColumn [nameColumn; infoColumn; ageColumn]
             updateOptions ∅ seven); reflexivity.
  - rewrite (Hdrop {["id" := seven; "name" := VString "bob"]} usersColumns "id"
               createOptions) by reflexivity.
    reflexivity.
Defined.

(** C3, as stated, fails when a column before the primary key is
    rejected: in the catalog [name, id], an update submitting a number for
    [name] together with [id] fails naming [name], not the primary key. *)
Lemma primary_key_rejection_reports_earlier_column :
  let form : gmap string Value := {["name" := seven; "id" := seven]} in
  let result := processForm form [nameColumn; idColumn] "id" updateOptions in
  IgnorePk updateOptions = false
  ∧ form !! "id" = Some seven
  ∧ result.2 = Some (ValidationError "name")
  ∧ result.2 ≠ Some (ValidationError "id").
Proof. cbn zeta. repeat split; try reflexivity. by vm_compute. Qed.

(** ** Keys of the sanitized map *)

Lemma rangeForm_keys (form : gmap string Value) k :
  k ∈ (rangeForm form).1 ↔ is_Some (form !! k).
Proof.
  unfold rangeForm, rangeIn. cbn [fst]. rewrite list_elem_of_fmap. split.
  - intros ([k' v] & -> & Hkv). apply elem_of_map_to_list in Hkv. by exists v.
  - intros [v Hv]. exists (k, v). split; [done|]. by apply elem_of_map_to_list.
Qed.


(** An extra field [nickname] changes neither the answer nor the
    statement. *)
Example extra_field_ignored :
  handlerCreateItem usersExplorer
    (createRequest {["name" := VString "bob"; "age" := seven; "nickname" := VString "b"]})
  = handlerCreateItem usersExplorer
      (createRequest {["name" := VString "bob"; "age" := seven]})
  ∧ createItemStatement "users"
      (processForm {["name" := VString "bob"; "age" := seven; "nickname" := VString "b"]}
         usersColumns "id" createOptions).1
    = (["info"; "age"; "name"],
       ("INSERT INTO users (info, age, name) VALUES (?, ?, ?)",
        [VNil; seven; VString "bob"])).
Proof. split; reflexivity. Qed.

(** ** The validator and the caller's map *)

Section store.
Context (primaryKey : string) (opts : ValidationOptions).
Implicit Types σ : gmap Store.loc (gmap string Value).

Lemma get_lookup σ form obj name :
  σ !! form = Some obj → Store.get σ form name = obj !! name.
Proof. intros Hform. unfold Store.get. by rewrite Hform. Qed.

Lemma set_insert σ newForm acc name value :
  σ !! newForm = Some acc →
  Store.set σ newForm name value = <[newForm := <[name := value]> acc]> σ.
Proof.
  intros Hnew. unfold Store.set. apply map_eq. intros l.
  destruct (decide (l = newForm)) as [->|Hne].
  - by rewrite lookup_alter_eq, lookup_insert_eq, Hnew.
  - by rewrite lookup_alter_ne, lookup_insert_ne.
Qed.

(** The loop over the store writes what the loop over values computes,
    into [newForm] and nowhere else. *)
Lemma store_processColumns_refines σ form newForm obj acc columns :
  σ !! form = Some obj → σ !! newForm = Some acc → form ≠ newForm →
  Store.processColumns σ form columns primaryKey opts newForm =
  (<[newForm := (processColumns obj columns primaryKey opts acc).1]> σ,
   (processColumns obj columns primaryKey opts acc).2).
Proof.
  revert σ acc. induction columns as [|c columns IH]; intros σ acc Hform Hnew Hne.
  { cbn. by rewrite insert_id. }
  assert (∀ name value,
    Store.processColumns (Store.set σ newForm name value) form columns
      primaryKey opts newForm =
    (<[newForm := (processColumns obj columns primaryKey opts (<[name := value]> acc)).1]> σ,
     (processColumns obj columns primaryKey opts (<[name := value]> acc)).2)) as Hwrite.
  { intros name value. rewrite (set_insert _ _ acc) by done.
    rewrite (IH _ (<[name := value]> acc)).
    - by rewrite insert_insert_eq.
    - by rewrite lookup_insert_ne.
    - by rewrite lookup_insert_eq.
    - done. }
  cbn [Store.processColumns processColumns].
  rewrite (get_lookup _ _ obj) by done.
  destruct (Nullable c) as [nullable ok].
  repeat case_match; cbn [fst snd]; rewrite ?Hwrite, ?(IH σ acc) by done;
    try done; by rewrite insert_id.
Qed.
End store.

(** C10. [processForm] does not touch the submitted map. Run on a store
    where [form] refers to the map [obj], it allocates a map [newForm]
    that did not exist before and differs from [form], leaves [form]
    holding [obj] with every entry as it was, changes no other object of
    the store, and returns [newForm] holding the sanitized map; this
    whether the returned error is nil or not. *)
Theorem processForm_leaves_form_untouched σ form obj columns primaryKey opts :
  σ !! form = Some obj →
  ∃ σ' newForm,
    Store.processForm σ form columns primaryKey opts
      = (σ', newForm, (processForm obj columns primaryKey opts).2)
    ∧ σ !! newForm = None
    ∧ newForm ≠ form
    ∧ σ' !! form = Some obj
    ∧ σ' !! newForm = Some (processForm obj columns primaryKey opts).1
    ∧ ∀ l, l ≠ newForm → σ' !! l = σ !! l.
Proof.
  intros Hform. unfold Store.processForm, Store.make.
  set (newForm := fresh (dom σ)).
  assert (σ !! newForm = None) as Hfresh.
  { apply not_elem_of_dom. apply is_fresh. }
  assert (form ≠ newForm) as Hne by congruence.
  rewrite (store_processColumns_refines _ _ _ _ _ obj ∅).
  - eexists _, newForm. split; [reflexivity|].
    split; [done|split; [done|split; [|split]]].
    + by rewrite insert_insert_eq, lookup_insert_ne.
    + by rewrite insert_insert_eq, lookup_insert_eq.
    + intros l Hl. by rewrite insert_insert_eq, lookup_insert_ne.
  - by rewrite lookup_insert_ne.
  - by rewrite lookup_insert_eq.
  - done.
Qed.

(** A rejected create and an accepted one, in a store holding the
    submitted map alone. *)
Lemma processForm_leaves_form_untouched_witness :
  (∃ σ' newForm,
     Store.processForm {[1%positive := {["name" := seven]}]} 1%positive
       usersColumns "id" createOptions
       = (σ', newForm, Some (ValidationError "name"))
     ∧ σ' !! 1%positive = Some {["name" := seven]})
  ∧ (∃ σ' newForm,
     Store.processForm {[1%positive := {["name" := VString "bob"]}]} 1%positive
       usersColumns "id" createOptions
       = (σ', newForm, None)
     ∧ σ' !! 1%positive = Some {["name" := VString "bob"]}
     ∧ σ' !! newForm
       = Some {["name" := VString "bob"; "info" := VNil; "age" := VInt 0]}).
Proof.
  split.
  - destruct (processForm_leaves_form_untouched
                {[1%positive := {["name" := seven]}]} 1%positive {["name" := seven]}
                usersColumns "id" createOptions (lookup_singleton_eq _ _))
      as (σ' & newForm & Hrun & _ & _ & Hform & _).
    by exists σ', newForm.
  - destruct (processForm_leaves_form_untouched
                {[1%positive := {["name" := VString "bob"]}]} 1%positive
                {["name" := VString "bob"]} usersColumns "id" createOptions
                (lookup_singleton_eq _ _))
      as (σ' & newForm & Hrun & _ & _ & Hform & Hnew & _).
    by exists σ', newForm.
Defined.

(** ** Patterns *)

Lemma MatchString_star a rest s :
  MatchString ((a, true) :: rest) s =
  MatchString rest s ||
  match s with
  | String c s' => accepts a c && MatchString ((a, true) :: rest) s'
  | EmptyString => false
  end.
Proof. by destruct s. Qed.

Lemma MatchString_one a rest c s :
  MatchString ((a, false) :: rest) (String c s) = accepts a c && MatchString rest s.
Proof. done. Qed.

Lemma MatchString_sound re s : MatchString re s = true → Matches re s.
Proof.
  revert s. induction re as [|[a [|]] rest IH]; intros s.
  - destruct s; [constructor|done].
  - induction s as [|c s IHs]; rewrite MatchString_star.
    + rewrite orb_false_r. intros Hrest. apply Matches_star_done. by apply IH.
    + intros [Hrest|[Hc Hs]%andb_prop]%orb_prop.
      * apply Matches_star_done. by apply IH.
      * apply Matches_star_more; [done|]. by apply IHs.
  - destruct s as [|c s]; [done|]. rewrite MatchString_one.
    intros [Hc Hs]%andb_prop. apply Matches_one; [done|]. by apply IH.
Qed.

Lemma MatchString_complete re s : Matches re s → MatchString re s = true.
Proof.
  induction 1 as [|a rest c s Hc _ IH|a rest s _ IH|a rest c s Hc _ IH].
  - done.
  - rewrite MatchString_one. by rewrite Hc, IH.
  - rewrite MatchString_star. by rewrite IH.
  - rewrite MatchString_star. rewrite Hc, IH. apply orb_true_r.
Qed.

(** [MatchString] decides membership of the whole string in the language
    of the pattern. *)
Lemma MatchString_Matches re s : MatchString re s = true ↔ Matches re s.
Proof. split; [apply MatchString_sound|apply MatchString_complete]. Qed.

(** The root pattern matches the path [/] and no other; a path that
    begins with it is not enough. *)
Lemma MatchString_root path :
  MatchString [(ALit "/", false)] path = true → path = "/".
Proof.
  destruct path as [|c path]; [done|]. rewrite MatchString_one.
  intros [Hc Hs]%andb_prop. cbn [accepts] in Hc. apply Ascii.eqb_eq in Hc as <-.
  by destruct path.
Qed.

(** A run of word characters holds no [/]. *)
Lemma word_run_has_no_slash rest s :
  MatchString [(AWord, true)] s = true →
  MatchString ((AWord, true) :: (ALit "/", false) :: rest) s = true → False.
Proof.
  induction s as [|c s IH].
  - done.
  - rewrite (MatchString_star AWord []), (MatchString_star AWord (_ :: rest)).
    rewrite MatchString_one. change (MatchString [] (String c s)) with false.
    rewrite orb_false_l.
    intros [Hc Hs]%andb_prop [[Hslash _]%andb_prop|[_ Hs']%andb_prop]%orb_prop.
    + cbn [accepts] in Hslash, Hc. apply Ascii.eqb_eq in Hslash. by subst c.
    + by apply IH.
Qed.

(** ** The dispatcher *)

Lemma serve_skip pre rest r :
  Forall (λ route, ¬ applies route r) pre →
  serve (pre ++ rest) r = serve rest r.
Proof.
  induction 1 as [|route pre Hroute _ IH]; [done|].
  cbn [app serve]. destruct (String.eqb_spec (Method route) (ReqMethod r)) as [Hm|Hm]; [|done].
  cbn [negb]. destruct (MatchString (Pattern route) (ReqPath r)) eqn:Hp; [|done].
  destruct Hroute. by split.
Qed.

Lemma Handle_appends rt method pattern handler rt' :
  Handle rt method pattern handler = Return rt' →
  ∃ re, MustCompile ("^" +:+ pattern +:+ "$") = Return re
        ∧ routes rt' =
          (routes rt ++ [{| Method := method; Pattern := re; Handler := handler |}])%list.
Proof.
  unfold Handle. destruct (MustCompile _) as [re|msg]; [|done].
  cbn. intros [= <-]. by exists re.
Qed.

(** The routes [initRoutes] registers on an empty router. *)
Lemma initRoutes_routes exp :
  routes (router exp) = [] →
  initRoutes exp = Return {| routes := [
    {| Method := MethodGet; Pattern := [(ALit "/", false)];
       Handler := handlerGetTableNames exp |};
    {| Method := MethodGet; Pattern := [(ALit "/", false); (AWord, true)];
       Handler := handlerGetTableItems exp |};
    {| Method := MethodGet;
       Pattern := [(ALit "/", false); (AWord, true); (ALit "/", false);
                   (ARange "0" "9", true)];
       Handler := handlerGetTableItem exp |};
    {| Method := MethodPut;
       Pattern := [(ALit "/", false); (AWord, true); (ALit "/", false)];
       Handler := handlerCreateItem exp |};
    {| Method := MethodDelete;
       Pattern := [(ALit "/", false); (AWord, true); (ALit "/", false);
                   (ARange "0" "9", true)];
       Handler := handlerDeleteItem exp |};
    {| Method := MethodPost;
       Pattern := [(ALit "/", false); (AWord, true); (ALit "/", false);
                   (ARange "0" "9", true)];
       Handler := handlerUpdateItem exp |} ] |}.
Proof.
  intros Hempty. unfold initRoutes, Handle. rewrite Hempty. reflexivity.
Qed.

(** C5. [ServeHTTP] goes through the routes in the order [Handle]
    registered them (each [Handle] appends one route, with the pattern
    anchored by [^] and [$]) and runs the handler of the first route whose
    method is the request's and whose pattern matches the request path,
    that is the whole path is in the language of the pattern; when no
    route applies, it answers 404 with no body. *)
Theorem ServeHTTP_first_match exp r :
  (∀ pre route post,
     routes (router exp) = (pre ++ route :: post)%list →
     Forall (λ earlier, ¬ applies earlier r) pre →
     applies route r →
     ServeHTTP exp r = Handler route r)
  ∧ (Forall (λ route, ¬ applies route r) (routes (router exp)) →
     ServeHTTP exp r = Return {| Status := StatusNotFound; Body := NoBody |})
  ∧ (∀ route, applies route r ↔
       Method route = ReqMethod r ∧ Matches (Pattern route) (ReqPath r))
  ∧ (∀ rt method pattern handler rt',
       Handle rt method pattern handler = Return rt' →
       ∃ re, MustCompile ("^" +:+ pattern +:+ "$") = Return re
             ∧ routes rt' =
               (routes rt ++ [{| Method := method; Pattern := re; Handler := handler |}])%list).
Proof.
  unfold ServeHTTP. split; [|split; [|split]].
  - intros pre route post -> Hpre [Hm Hp]. rewrite serve_skip by done.
    cbn [serve]. rewrite Hm, String.eqb_refl. cbn [negb]. by rewrite Hp.
  - intros Hnone. rewrite <- (app_nil_r (routes (router exp))).
    by rewrite serve_skip.
  - intros route. unfold applies. by rewrite MatchString_Matches.
  - apply Handle_appends.
Qed.

Lemma servingExplorer_routes :
  routes (router servingExplorer) = [
    {| Method := MethodGet; Pattern := [(ALit "/", false)];
       Handler := handlerGetTableNames usersExplorer |};
    {| Method := MethodGet; Pattern := [(ALit "/", false); (AWord, true)];
       Handler := handlerGetTableItems usersExplorer |};
    {| Method := MethodGet;
       Pattern := [(ALit "/", false); (AWord, true); (ALit "/", false);
                   (ARange "0" "9", true)];
       Handler := handlerGetTableItem usersExplorer |};
    {| Method := MethodPut;
       Pattern := [(ALit "/", false); (AWord, true); (ALit "/", false)];
       Handler := handlerCreateItem usersExplorer |};
    {| Method := MethodDelete;
       Pattern := [(ALit "/", false); (AWord, true); (ALit "/", false);
                   (ARange "0" "9", true)];
       Handler := handlerDeleteItem usersExplorer |};
    {| Method := MethodPost;
       Pattern := [(ALit "/", false); (AWord, true); (ALit "/", false);
                   (ARange "0" "9", true)];
       Handler := handlerUpdateItem usersExplorer |} ].
Proof.
  unfold servingExplorer. cbn [router].
  by rewrite (initRoutes_routes usersExplorer eq_refl).
Defined.

(** [GET /users] passes the root route, which matches [/] only, and is
    served by the table-items route; [GET /users/x] is served by none. *)
Lemma ServeHTTP_first_match_witness :
  ServeHTTP servingExplorer (getRequest "/users")
    = handlerGetTableItems usersExplorer (getRequest "/users")
  ∧ ServeHTTP servingExplorer (getRequest "/users/x")
    = Return {| Status := StatusNotFound; Body := NoBody |}.
Proof.
  split.
  - refine (proj1 (ServeHTTP_first_match servingExplorer (getRequest "/users"))
              [_] _ _ servingExplorer_routes _ _).
    + apply Forall_cons. split; [|apply Forall_nil_2].
      intros [_ Hp]. discriminate Hp.
    + split; reflexivity.
  - apply (proj1 (proj2 (ServeHTTP_first_match servingExplorer (getRequest "/users/x")))).
    rewrite servingExplorer_routes.
    repeat (apply Forall_cons; split; [intros [Hm Hp]; discriminate Hm || discriminate Hp|]).
    apply Forall_nil_2.
Defined.

(** ** Overlap of the registered routes *)

(** C6 (amended). Among the six routes of [initRoutes], two different
    routes with the same method match the same path in one case only: the
    path [/] under GET, matched by the root route (registered first) and by
    the table-items route (registered second), whose [\w*] also matches the
    empty table name. There the order decides: the dispatcher serves
    [GET /] with [handlerGetTableNames]. For every other method and path
    at most one route matches. *)
Theorem initRoutes_overlap_only_at_root exp rt :
  routes (router exp) = [] →
  initRoutes exp = Return rt →
  ∀ i j ri rj path,
    i < j →
    routes rt !! i = Some ri →
    routes rt !! j = Some rj →
    Method ri = Method rj →
    MatchString (Pattern ri) path = true →
    MatchString (Pattern rj) path = true →
    i = 0 ∧ j = 1 ∧ Method ri = MethodGet ∧ path = "/"
    ∧ ∀ exp' r, router exp' = rt → ReqMethod r = MethodGet → ReqPath r = "/" →
        ServeHTTP exp' r = handlerGetTableNames exp r.
Proof.
  intros Hempty Hinit. rewrite (initRoutes_routes _ Hempty) in Hinit.
  injection Hinit as <-. cbn [routes].
  intros i j ri rj path Hlt Hi Hj Hm Hpi Hpj.
  destruct i as [|[|[|[|[|[|i]]]]]]; try done;
  destruct j as [|[|[|[|[|[|j]]]]]]; try done; try lia;
  cbn in Hi, Hj; simplify_eq; cbn [Method Pattern] in *; try discriminate.
  - apply MatchString_root in Hpi as ->.
    repeat split; try done. intros exp' r Hrt Hrm Hrp.
    unfold ServeHTTP. rewrite Hrt. cbn [routes serve Method Pattern Handler].
    by rewrite Hrm, Hrp.
  - by apply MatchString_root in Hpi as ->.
  - destruct path as [|c path]; [done|].
    rewrite MatchString_one in Hpi, Hpj.
    apply andb_prop in Hpi as [_ Hpi]. apply andb_prop in Hpj as [_ Hpj].
    destruct (word_run_has_no_slash _ _ Hpi Hpj).
Qed.

(** The one overlap, on the sample explorer. *)
Lemma initRoutes_overlap_only_at_root_witness :
  ServeHTTP servingExplorer (getRequest "/")
    = handlerGetTableNames usersExplorer (getRequest "/").
Proof.
  assert (initRoutes usersExplorer = Return (router servingExplorer)) as Hinit.
  { by rewrite (initRoutes_routes usersExplorer eq_refl). }
  pose proof servingExplorer_routes as Hroutes.
  destruct (initRoutes_overlap_only_at_root usersExplorer (router servingExplorer)
              eq_refl Hinit 0 1
              {| Method := MethodGet; Pattern := [(ALit "/", false)];
                 Handler := handlerGetTableNames usersExplorer |}
              {| Method := MethodGet; Pattern := [(ALit "/", false); (AWord, true)];
                 Handler := handlerGetTableItems usersExplorer |}
              "/") as (_ & _ & _ & _ & Hserve);
    [lia|by rewrite Hroutes|by rewrite Hroutes|reflexivity|reflexivity|reflexivity|].
  by apply Hserve.
Defined.

(** C6, as stated, fails at [GET /]: the first two registered routes
    have the same method and both match that path. *)
Lemma fixed_routes_overlap_at_root :
  match routes (router servingExplorer) with
  | root :: items :: _ =>
    Method root = Method items
    ∧ MatchString (Pattern root) "/" = true
    ∧ MatchString (Pattern items) "/" = true
  | _ => False
  end.
Proof. rewrite servingExplorer_routes. repeat split. Qed.

(** ** Pagination *)

Lemma getQueryIntValue_default query key defaultValue :
  query !! key = None ∨ (Atoi (Get query key)).2 ≠ None →
  getQueryIntValue query key defaultValue = defaultValue.
Proof.
  unfold getQueryIntValue, Has. intros [Habsent|Hbad].
  - rewrite Habsent. rewrite bool_decide_false; [done|]. by intros [? ?].
  - destruct (bool_decide _); [|done]. cbn [negb].
    destruct (Atoi (Get query key)) as [intValue [e|]]; [done|]. by destruct Hbad.
Qed.

Lemma getQueryIntValue_parsed query key defaultValue n :
  is_Some (query !! key) → Atoi (Get query key) = (n, None) →
  getQueryIntValue query key defaultValue = n.
Proof.
  unfold getQueryIntValue, Has. intros Hhas Hparse.
  rewrite bool_decide_true by done. cbn [negb]. by rewrite Hparse.
Qed.

Lemma getQueryIntValue_nonneg query key defaultValue :
  (0 ≤ defaultValue)%Z →
  (0 ≤ getQueryIntValue query key defaultValue)%Z
  ↔ ¬ ∃ n, is_Some (query !! key) ∧ Atoi (Get query key) = (n, None) ∧ (n < 0)%Z.
Proof.
  intros Hdefault. destruct (query !! key) as [vs|] eqn:Hkey.
  - destruct (Atoi (Get query key)) as [n [e|]] eqn:Hparse.
    + rewrite getQueryIntValue_default by (right; by rewrite Hparse).
      split; [|done]. by intros _ (n' & _ & ? & _).
    + rewrite (getQueryIntValue_parsed _ _ _ n); [|by rewrite Hkey|done].
      split.
      * intros Hn (n' & _ & [= <-] & Hneg). lia.
      * intros Hnone. destruct (decide (0 ≤ n)%Z) as [|Hneg]; [done|].
        destruct Hnone. exists n. split; [by eexists|]. split; [done|lia].
  - rewrite getQueryIntValue_default by by left.
    split; [|done]. intros _ (n & [? ?] & _). done.
Qed.

(** C8 (amended). [getPagination] returns a [Pagination] for every
    query and never an error. [Limit] is 5 and [Offset] is 0 when the
    parameter is absent or [Atoi] rejects its first value; otherwise each
    is the parsed integer as it is. There is no clamping: a field is
    non-negative unless its parameter parses to a negative integer, and
    then it is that negative integer. *)
Theorem getPagination_decodes query :
  let p := getPagination query in
  (query !! "limit" = None ∨ (Atoi (Get query "limit")).2 ≠ None → Limit p = 5%Z)
  ∧ (query !! "offset" = None ∨ (Atoi (Get query "offset")).2 ≠ None → Offset p = 0%Z)
  ∧ (∀ n, is_Some (query !! "limit") → Atoi (Get query "limit") = (n, None) →
       Limit p = n)
  ∧ (∀ n, is_Some (query !! "offset") → Atoi (Get query "offset") = (n, None) →
       Offset p = n)
  ∧ ((0 ≤ Limit p)%Z ↔
       ¬ ∃ n, is_Some (query !! "limit") ∧ Atoi (Get query "limit") = (n, None)
              ∧ (n < 0)%Z)
  ∧ ((0 ≤ Offset p)%Z ↔
       ¬ ∃ n, is_Some (query !! "offset") ∧ Atoi (Get query "offset") = (n, None)
              ∧ (n < 0)%Z).
Proof.
  cbn zeta. unfold getPagination. cbn [Limit Offset].
  split; [apply getQueryIntValue_default|].
  split; [apply getQueryIntValue_default|].
  split; [intros n; apply getQueryIntValue_parsed|].
  split; [intros n; apply getQueryIntValue_parsed|].
  split; by apply getQueryIntValue_nonneg.
Qed.

(** C8, as stated, fails on [?limit=-3&offset=-1]: both values parse, and
    the pagination carries them as they are. *)
Lemma getPagination_negative :
  let query : gmap string (list string) := {["limit" := ["-3"]; "offset" := ["-1"]]} in
  getPagination query = {| Offset := (-1)%Z; Limit := (-3)%Z |}
  ∧ ¬ (0 ≤ Limit (getPagination query))%Z
  ∧ ¬ (0 ≤ Offset (getPagination query))%Z.
Proof. cbn zeta. split; [reflexivity|]. split; by vm_compute. Qed.

Example getPagination_fallback :
  getPagination ∅ = {| Offset := 0%Z; Limit := 5%Z |}
  ∧ getPagination {["limit" := ["ten"]; "offset" := [EmptyString]]}
    = {| Offset := 0%Z; Limit := 5%Z |}
  ∧ getPagination {["limit" := ["20"]; "offset" := ["40"; "7"]]}
    = {| Offset := 40%Z; Limit := 20%Z |}.
Proof. repeat split. Qed.

(** ** The constructor *)

Lemma getTableNames_swallows_query_error exp e :
  Query (DB exp) "SHOW TABLES" [] = inl e → getTableNames exp = ([], None).
Proof. unfold getTableNames. by intros ->. Qed.

(** When the listing query fails, [getTableNames] returns the empty list
    with a nil error, and the constructor goes on to build an explorer
    with an empty catalog. *)
Lemma NewDbExplorer_ignores_listing_failure db e :
  Query db "SHOW TABLES" [] = inl e →
  ∃ exp, NewDbExplorer db = Return (exp, None)
         ∧ TableNames exp = [] ∧ TableColumns exp = ∅.
Proof.
  intros Hfail. unfold NewDbExplorer.
  rewrite (getTableNames_swallows_query_error _ e) by done.
  cbn [TableNames TableColumns router initTableColumns mbind result_bind].
  rewrite initRoutes_routes by done. cbn. eauto.
Qed.

(** C9 (the code departs from it). On an engine whose listing query
    fails, [NewDbExplorer] returns a nil error and an explorer whose table
    catalog is empty, with all six routes registered. *)
Theorem NewDbExplorer_unreachable_engine :
  Query unreachableDB "SHOW TABLES" [] = inl (Errorf "dial tcp: connection refused")
  ∧ ∃ exp, NewDbExplorer unreachableDB = Return (exp, None)
           ∧ TableNames exp = []
           ∧ TableColumns exp = ∅
           ∧ length (routes (router exp)) = 6
           ∧ ServeHTTP exp (getRequest "/")
             = respond StatusOK (Response (GetTableNamesResponse [])).
Proof.
  split; [reflexivity|].
  eexists. split; [reflexivity|]. repeat split.
Qed.

(** * Further properties *)

(** ** Which submissions the validator accepts *)

(** A column alone passes the loop exactly when it is [columnAccepted]. *)
Lemma processColumns_single form c primaryKey opts newForm :
  (processColumns form [c] primaryKey opts newForm).2 = None ↔
  columnAccepted form primaryKey opts c.
Proof.
  unfold columnAccepted. cbn [processColumns].
  destruct (Nullable c) as [nullable ok] eqn:Hnull. cbn [fst snd].
  destruct ok; cbn [negb]; [|split; [done|by intros [? _]]].
  destruct (decide (Name c = primaryKey)) as [Hpk|Hpk].
  - destruct (form !! Name c) as [v|] eqn:Hform.
    + rewrite bool_decide_true by done. destruct (IgnorePk opts); cbn [andb negb snd].
      * split; [|done]. intros _. split; [done|]. split; [by right|]. by split.
      * split; [done|]. intros (_ & Hcase & _). by destruct (Hcase Hpk).
    + rewrite bool_decide_false by (by intros [? ?]). cbn [andb]. split; [|done].
      intros _. split; [done|]. split; [by left|]. by split.
  - destruct (form !! Name c) as [v|] eqn:Hform.
    + split.
      * intros Hrun. split; [done|]. split; [done|]. split; [|by intros].
        intros _ v' [= <-] Hbad.
        apply kind_rejected in Hbad. rewrite Hnull in Hbad. cbn [fst] in Hbad.
        rewrite Hbad in Hrun. done.
      * intros (_ & _ & Hkind & _). specialize (Hkind Hpk v eq_refl).
        apply kind_accepted in Hkind. rewrite Hnull in Hkind. cbn [fst] in Hkind.
        by rewrite Hkind.
    + destruct (IgnoreNotProvidedField opts) eqn:Hi; [|destruct nullable; cbn [negb];
        [|destruct (WithDefaultValues opts) eqn:Hw; cbn [negb snd]]].
      * split; [|done]. intros _. split; [done|]. split; [done|]. split; [by intros|].
        intros _ _. tauto.
      * split; [|done]. intros _. split; [done|]. split; [done|]. split; [by intros|].
        intros _ _. tauto.
      * split; [|done]. intros _. split; [done|]. split; [done|]. split; [by intros|].
        intros _ _. tauto.
      * split; [done|]. intros (_ & _ & _ & Hcase).
        destruct (Hcase Hpk eq_refl) as [?|[?|?]]; done.
Qed.

Lemma processColumns_accepts_iff form columns primaryKey opts newForm :
  (processColumns form columns primaryKey opts newForm).2 = None ↔
  ∀ c, c ∈ columns → columnAccepted form primaryKey opts c.
Proof.
  revert newForm. induction columns as [|c columns IH]; intros newForm.
  { split; [|done]. intros _ c Hc. by apply elem_of_nil in Hc. }
  change (c :: columns) with ([c] ++ columns)%list. rewrite processColumns_app.
  pose proof (processColumns_single form c primaryKey opts newForm) as Hc.
  destruct (processColumns form [c] primaryKey opts newForm) as [m [e|]]; cbn [snd] in *.
  - split; [done|]. intros Hall. apply Hc. apply Hall. apply list_elem_of_here.
  - rewrite IH. split.
    + intros Hall c' [->|Hc']%elem_of_cons; [by apply Hc|by apply Hall].
    + intros Hall c' Hc'. apply Hall. by apply list_elem_of_further.
Qed.

(** X1. [processForm] returns a nil error exactly when every column of
    the catalog passes its turn of the loop: its nullability is reported by
    the driver; if it is the primary key, no value is submitted for it or
    [IgnorePk] is set; otherwise a submitted value has no kind mismatch,
    and a missing value is tolerated by [IgnoreNotProvidedField], by the
    column being nullable, or by [WithDefaultValues]. *)
Theorem processForm_accepts_iff form columns primaryKey opts :
  (processForm form columns primaryKey opts).2 = None ↔
  ∀ c, c ∈ columns →
    (Nullable c).2 = true
    ∧ (Name c = primaryKey → form !! Name c = None ∨ IgnorePk opts = true)
    ∧ (Name c ≠ primaryKey → ∀ v, form !! Name c = Some v → ¬ kindMismatch v c)
    ∧ (Name c ≠ primaryKey → form !! Name c = None →
       IgnoreNotProvidedField opts = true ∨ (Nullable c).1 = true
       ∨ WithDefaultValues opts = true).
Proof. apply processColumns_accepts_iff. Qed.

(** ** The shape of the sanitized map *)

(** Entries only accumulate. *)
Lemma processColumns_mono form columns primaryKey opts newForm k :
  is_Some (newForm !! k) →
  is_Some ((processColumns form columns primaryKey opts newForm).1 !! k).
Proof.
  revert newForm. induction columns as [|c columns IH]; intros newForm Hk; [done|].
  cbn [processColumns]. destruct (Nullable c) as [nullable ok].
  repeat case_match; try done; apply IH; try done;
    (destruct (decide (Name c = k)) as [<-|?];
      [by rewrite lookup_insert_eq|by rewrite lookup_insert_ne]).
Qed.

Lemma processColumns_covers form columns primaryKey opts newForm m c :
  IgnoreNotProvidedField opts = false →
  processColumns form columns primaryKey opts newForm = (m, None) →
  c ∈ columns → Name c ≠ primaryKey → is_Some (m !! Name c).
Proof.
  intros Hmissing. revert newForm.
  induction columns as [|c' columns IH]; intros newForm Hrun Hc Hpk.
  { by apply elem_of_nil in Hc. }
  apply elem_of_cons in Hc as [<-|Hc].
  - revert Hrun. cbn [processColumns]. rewrite Hmissing.
    destruct (Nullable c) as [nullable ok].
    repeat case_match; try done; intros Hrun;
      change m with (m, @None error).1; rewrite <- Hrun;
      apply processColumns_mono; by rewrite lookup_insert_eq.
  - revert Hrun. cbn [processColumns].
    destruct (Nullable c') as [nullable ok].
    repeat case_match; try done; intros Hrun; by eapply IH.
Qed.

(** With [IgnoreNotProvidedField], the loop only copies. *)
Lemma processColumns_copies_only form columns primaryKey opts newForm m k :
  IgnoreNotProvidedField opts = true →
  processColumns form columns primaryKey opts newForm = (m, None) →
  m !! k = if decide (k ∈ Name <$> columns ∧ k ≠ primaryKey ∧ is_Some (form !! k))
           then form !! k else newForm !! k.
Proof.
  intros Hmissing. revert newForm.
  induction columns as [|c columns IH]; intros newForm Hrun.
  { cbn in Hrun. injection Hrun as <-. rewrite decide_False; [done|].
    intros [Hk _]. by apply elem_of_nil in Hk. }
  revert Hrun. cbn [processColumns]. rewrite Hmissing.
  destruct (Nullable c) as [nullable ok]. rewrite fmap_cons.
  destruct (negb ok); [done|].
  destruct (decide (Name c = primaryKey)) as [Hpk|Hpk].
  - destruct (_ && _); [done|]. intros Hrun. rewrite (IH _ Hrun).
    apply decide_ext. rewrite elem_of_cons. split; [tauto|].
    intros ([->|?] & ? & ?); [done|tauto].
  - destruct (form !! Name c) as [v|] eqn:Hform.
    + destruct (negb _); [done|]. intros Hrun. rewrite (IH _ Hrun).
      destruct (decide (k = Name c)) as [->|Hne].
      * rewrite lookup_insert_eq, Hform.
        assert (Name c ∈ Name c :: (Name <$> columns)
                ∧ Name c ≠ primaryKey ∧ is_Some (Some v)) as Hhere.
        { split; [apply list_elem_of_here|]. split; [done|by eexists]. }
        by repeat case_decide.
      * rewrite lookup_insert_ne by done. apply decide_ext.
        rewrite elem_of_cons. tauto.
    + intros Hrun. rewrite (IH _ Hrun). apply decide_ext. rewrite elem_of_cons.
      split; [tauto|]. intros ([->|?] & ? & Hsome); [|tauto].
      rewrite Hform in Hsome. by destruct Hsome.
Qed.

(** X2. Under a policy that ignores missing fields (the update policy),
    an accepted submission is sanitized to its restriction to the columns
    other than the primary key: a key of the sanitized map holds what the
    submission holds if it names such a column, and nothing otherwise. *)
Theorem processForm_partial_update_restricts form columns primaryKey opts m :
  IgnoreNotProvidedField opts = true →
  processForm form columns primaryKey opts = (m, None) →
  ∀ k, m !! k = if decide (k ∈ Name <$> columns ∧ k ≠ primaryKey)
                then form !! k else None.
Proof.
  intros Hmissing Hrun k.
  rewrite (processColumns_copies_only _ _ _ _ _ _ k Hmissing Hrun), lookup_empty.
  case_decide as Hcopy; case_decide as Hcolumn; try done; try tauto.
  destruct (form !! k) as [v|] eqn:Hk; [|done].
  destruct Hcopy. split; [tauto|]. split; [tauto|by eexists].
Qed.

Lemma processForm_partial_update_restricts_witness :
  processForm {["name" := VString "bo"; "nickname" := VString "b"]}
    usersColumns "id" updateOptions
  = ({["name" := VString "bo"]}, None)
  ∧ ({["name" := VString "bo"]} : gmap string Value) !! "nickname" = None
  ∧ ({["name" := VString "bo"]} : gmap string Value) !! "name" = Some (VString "bo").
Proof.
  assert (processForm {["name" := VString "bo"; "nickname" := VString "b"]}
            usersColumns "id" updateOptions = ({["name" := VString "bo"]}, None))
    as Hrun by reflexivity.
  split; [exact Hrun|]. split.
  - by rewrite (processForm_partial_update_restricts _ _ _ updateOptions _ eq_refl Hrun "nickname").
  - by rewrite (processForm_partial_update_restricts _ _ _ updateOptions _ eq_refl Hrun "name").
Defined.

(** X3. Under a policy that does not ignore missing fields (the create
    policy), the keys of an accepted submission's sanitized map are exactly
    the names of the columns other than the primary key: every such column
    gets a value, submitted, nil or default. *)
Theorem processForm_create_fills_columns form columns primaryKey opts m :
  IgnoreNotProvidedField opts = false →
  processForm form columns primaryKey opts = (m, None) →
  ∀ k, is_Some (m !! k) ↔ k ∈ Name <$> columns ∧ k ≠ primaryKey.
Proof.
  intros Hmissing Hrun k. split.
  - intros Hk. change m with (m, @None error).1 in Hk. rewrite <- Hrun in Hk.
    split.
    + apply processColumns_keys in Hk as [Hk|Hk]; [|done].
      rewrite lookup_empty in Hk. by destruct Hk.
    + intros ->. unfold processForm in Hk.
      rewrite processColumns_frame in Hk by by left.
      rewrite lookup_empty in Hk. by destruct Hk.
  - intros [(c & -> & Hc)%list_elem_of_fmap Hpk].
    by eapply processColumns_covers.
Qed.

Lemma processForm_create_fills_columns_witness :
  let m := (processForm {["name" := VString "bob"]} usersColumns "id" createOptions).1 in
  is_Some (m !! "age") ∧ is_Some (m !! "info") ∧ ¬ is_Some (m !! "id").
Proof.
  assert (processForm {["name" := VString "bob"]} usersColumns "id" createOptions
          = ({["name" := VString "bob"; "info" := VNil; "age" := VInt 0]}, None))
    as Hrun by reflexivity.
  pose proof (processForm_create_fills_columns _ _ _ createOptions _ eq_refl Hrun) as Hkeys.
  cbn zeta. rewrite Hrun. cbn [fst]. split; [|split].
  - apply Hkeys. split; [|done]. cbn. rewrite !elem_of_cons. tauto.
  - apply Hkeys. split; [|done]. cbn. rewrite !elem_of_cons. tauto.
  - intros Hid. by apply Hkeys in Hid as [_ ?].
Defined.

(** X4. When the driver reports the nullability of every column, an
    update that submits no column of the table (an empty body, or unknown
    fields only) passes validation with an empty sanitized map, and
    [updateItem] then builds an UPDATE whose SET list is empty, bound to
    the primary-key value alone. Without the proviso the update is
    rejected: a column whose nullability the driver does not report makes
    validation fail. *)
Theorem update_without_columns_has_empty_set_list form columns primaryKey opts :
  IgnoreNotProvidedField opts = true →
  (∀ c, c ∈ columns → form !! Name c = None) →
  ((∀ c, c ∈ columns → (Nullable c).2 = true) →
     processForm form columns primaryKey opts = (∅, None)
     ∧ ∀ table pkValue,
         updateItemStatement table (processForm form columns primaryKey opts).1
           primaryKey pkValue
         = ([], ("UPDATE " +:+ table +:+ " SET  WHERE " +:+ primaryKey +:+ " = ?",
                 [pkValue])))
  ∧ (∀ c, c ∈ columns → (Nullable c).2 = false →
       is_Some (processForm form columns primaryKey opts).2).
Proof.
  intros Hmissing Hnone. split.
  - intros Hok.
    assert ((processForm form columns primaryKey opts).2 = None) as Haccepted.
    { apply processColumns_accepts_iff. intros c Hc. split; [by apply Hok|].
      split; [intros _; left; by apply Hnone|]. split; [|by left].
      intros _ v Hv. by rewrite (Hnone c Hc) in Hv. }
    destruct (processForm form columns primaryKey opts) as [m err] eqn:Hrun.
    cbn [fst snd] in *. subst err.
    assert (m = ∅) as ->.
    { apply map_eq. intros k.
      rewrite (processColumns_copies_only _ _ _ _ _ _ k Hmissing Hrun), !lookup_empty.
      case_decide as Hk; [|done].
      destruct Hk as ((c & -> & Hc)%list_elem_of_fmap & Hpk & Hsome).
      rewrite (Hnone c Hc) in Hsome. by destruct Hsome. }
    split; [done|]. intros table pkValue.
    unfold updateItemStatement. by rewrite map_to_list_empty.
  - intros c Hc Hbad. apply processColumns_fails_at with c; [done|]. intros m.
    cbn [processColumns]. destruct (Nullable c) as [nullable ok]. cbn in Hbad. subst ok.
    by eexists.
Qed.

Lemma update_without_columns_has_empty_set_list_witness :
  processForm {["nickname" := VString "b"]} usersColumns "id" updateOptions = (∅, None)
  ∧ updateItemStatement "users"
      (processForm {["nickname" := VString "b"]} usersColumns "id" updateOptions).1
      "id" (VString "1")
    = ([], ("UPDATE users SET  WHERE id = ?", [VString "1"])).
Proof.
  assert (∀ c, c ∈ usersColumns →
            ({["nickname" := VString "b"]} : gmap string Value) !! Name c = None
            ∧ (Nullable c).2 = true) as Hcolumns.
  { intros c Hc. unfold usersColumns in Hc. rewrite !elem_of_cons in Hc.
    destruct Hc as [->|[->|[->|[->|Hc]]]];
      [by split..|by apply elem_of_nil in Hc]. }
  destruct (update_without_columns_has_empty_set_list
              {["nickname" := VString "b"]} usersColumns "id" updateOptions)
    as [Hempty _]; [reflexivity|by intros c Hc; apply Hcolumns|].
  destruct Hempty as [Hrun Hstmt]; [by intros c Hc; apply Hcolumns|].
  split; [exact Hrun|]. exact (Hstmt "users" (VString "1")).
Defined.

(** ** Type names *)

Lemma isNumberType_iff columnType :
  isNumberType columnType = true ↔ columnType = "NUMBER".
Proof.
  unfold isNumberType. cbn [existsb]. rewrite orb_false_r, String.eqb_eq.
  split; by intros ->.
Qed.

Lemma isStringType_iff columnType :
  isStringType columnType = true ↔ columnType ∈ ["VARCHAR"; "TEXT"; "NVARCHAR"].
Proof.
  unfold isStringType. cbn [existsb]. rewrite orb_false_r, !orb_true_iff.
  rewrite !String.eqb_eq, !elem_of_cons, elem_of_nil. intuition congruence.
Qed.

(** X5. The kind check goes by the literal type name. In an accepted
    submission, a number submitted for a column other than the primary key
    means the column's [DatabaseTypeName] is exactly NUMBER, a string that
    it is VARCHAR, TEXT or NVARCHAR, and nil that the column is nullable;
    whatever its kind, the value is then in the sanitized map. *)
Theorem accepted_value_matches_type_name form columns primaryKey opts m c v :
  processForm form columns primaryKey opts = (m, None) →
  c ∈ columns →
  Name c ≠ primaryKey →
  form !! Name c = Some v →
  (∀ f, v = VFloat64 f → DatabaseTypeName c = "NUMBER")
  ∧ (∀ s, v = VString s → DatabaseTypeName c ∈ ["VARCHAR"; "TEXT"; "NVARCHAR"])
  ∧ (v = VNil → (Nullable c).1 = true)
  ∧ m !! Name c = Some v.
Proof.
  intros Hrun Hc Hpk Hform.
  assert ((processForm form columns primaryKey opts).2 = None) as Hok by by rewrite Hrun.
  unfold processForm in Hok. rewrite processColumns_accepts_iff in Hok.
  destruct (Hok c Hc) as (_ & _ & Hkind & _).
  specialize (Hkind Hpk v Hform). apply kind_accepted in Hkind.
  split; [|split; [|split]].
  - intros f ->. by apply isNumberType_iff.
  - intros s ->. by apply isStringType_iff.
  - by intros ->.
  - change m with (m, @None error).1. rewrite <- Hrun. unfold processForm.
    apply list_elem_of_split in Hc as (pre & post & ->).
    rewrite processColumns_app.
    unfold processForm in Hrun. rewrite processColumns_app in Hrun.
    destruct (processColumns form pre primaryKey opts ∅) as [m0 [e|]]; [done|].
    revert Hrun. cbn [processColumns]. rewrite Hform.
    destruct (Nullable c) as [nullable ok]. destruct (negb ok); [done|].
    rewrite decide_False by done. destruct (negb _); [done|]. intros _.
    apply processColumns_keep; [done|apply lookup_insert_eq].
Qed.

Lemma accepted_value_matches_type_name_witness :
  DatabaseTypeName ageColumn = "NUMBER"
  ∧ DatabaseTypeName nameColumn ∈ ["VARCHAR"; "TEXT"; "NVARCHAR"].
Proof.
  assert (processForm {["name" := VString "bob"; "age" := seven]} usersColumns "id"
            createOptions
          = ({["name" := VString "bob"; "info" := VNil; "age" := seven]}, None))
    as Hrun by reflexivity.
  split.
  - refine (proj1 (accepted_value_matches_type_name _ _ _ _ _ ageColumn seven
              Hrun _ _ _) _ eq_refl); [|done|reflexivity].
    unfold usersColumns. rewrite !elem_of_cons. tauto.
  - refine (proj1 (proj2 (accepted_value_matches_type_name _ _ _ _ _ nameColumn
              (VString "bob") Hrun _ _ _)) "bob" eq_refl); [|done|reflexivity].
    unfold usersColumns. rewrite !elem_of_cons. tauto.
Defined.

(** ** Paths *)

Lemma allChars_app p s t : allChars p (s +:+ t) = allChars p s && allChars p t.
Proof. induction s as [|c s IH]; [done|]. simpl. by rewrite IH, andb_assoc. Qed.

Lemma allChars_impl (p q : ascii → bool) s :
  (∀ c, p c = true → q c = true) → allChars p s = true → allChars q s = true.
Proof.
  intros Hpq. induction s as [|c s IH]; [done|]. simpl.
  intros [Hc Hs]%andb_prop. by rewrite (Hpq c Hc), IH.
Qed.

(** A starred atom alone matches the strings made of its characters. *)
Lemma MatchString_star_all a s :
  MatchString [(a, true)] s = allChars (accepts a) s.
Proof.
  induction s as [|c s IH]; [done|].
  rewrite MatchString_star. change (MatchString [] (String c s)) with false.
  by rewrite IH.
Qed.

(** A starred atom that rejects [/], then a [/]: the string splits at a
    [/] into a run of the atom's characters and a rest. *)
Lemma MatchString_run_then_slash a rest s :
  MatchString ((a, true) :: (ALit "/", false) :: rest) s = true ↔
  ∃ w t, s = w +:+ String "/" t ∧ allChars (accepts a) w = true
         ∧ MatchString rest t = true.
Proof.
  split.
  - induction s as [|c s IH]; rewrite MatchString_star; [done|].
    rewrite MatchString_one.
    intros [[Hc Ht]%andb_prop|[Hc Hs]%andb_prop]%orb_prop.
    + cbn [accepts] in Hc. apply Ascii.eqb_eq in Hc as <-. by exists EmptyString, s.
    + destruct (IH Hs) as (w & t & -> & Hw & Ht).
      exists (String c w), t. simpl. by rewrite Hc, Hw.
  - intros (w & t & -> & Hw & Ht). induction w as [|c w IH].
    + change (EmptyString +:+ String "/" t) with (String "/" t).
      rewrite MatchString_star, MatchString_one. cbn [accepts].
      by rewrite Ascii.eqb_refl, Ht.
    + simpl in Hw. apply andb_prop in Hw as [Hc Hw].
      change (String c w +:+ String "/" t) with (String c (w +:+ String "/" t)).
      rewrite MatchString_star. rewrite Hc, (IH Hw). apply orb_true_r.
Qed.

Lemma Split_cons c rest sep :
  Split (String c rest) sep =
  if Ascii.eqb c sep then EmptyString :: Split rest sep
  else match Split rest sep with
       | part :: parts => String c part :: parts
       | [] => [String c EmptyString]
       end.
Proof. done. Qed.

(** Without a separator, [Split] returns the string alone. *)
Lemma Split_whole s sep :
  allChars (λ c, negb (Ascii.eqb c sep)) s = true → Split s sep = [s].
Proof.
  induction s as [|c s IH]; [done|]. rewrite Split_cons. simpl allChars.
  intros [Hc Hs]%andb_prop. apply negb_true_iff in Hc. by rewrite Hc, (IH Hs).
Qed.

(** [Split] cuts at the first separator. *)
Lemma Split_first s t sep :
  allChars (λ c, negb (Ascii.eqb c sep)) s = true →
  Split (s +:+ String sep t) sep = s :: Split t sep.
Proof.
  induction s as [|c s IH].
  - intros _. change (EmptyString +:+ String sep t) with (String sep t).
    by rewrite Split_cons, Ascii.eqb_refl.
  - change (String c s +:+ String sep t) with (String c (s +:+ String sep t)).
    rewrite Split_cons. simpl allChars.
    intros [Hc Hs]%andb_prop. apply negb_true_iff in Hc. by rewrite Hc, (IH Hs).
Qed.

Lemma isWord_not_slash c : isWord c = true → negb (Ascii.eqb c "/") = true.
Proof.
  intros Hc. apply negb_true_iff. destruct (Ascii.eqb_spec c "/") as [->|]; [|done].
  discriminate Hc.
Qed.

Lemma isDigit_not_slash c : isDigit c = true → negb (Ascii.eqb c "/") = true.
Proof.
  intros Hc. apply negb_true_iff. destruct (Ascii.eqb_spec c "/") as [->|]; [|done].
  discriminate Hc.
Qed.

Lemma Split_table_path w :
  allChars isWord w = true → Split (String "/" w) "/" = [EmptyString; w].
Proof.
  intros Hw. rewrite Split_cons, Ascii.eqb_refl. f_equal. apply Split_whole.
  by apply (allChars_impl isWord); [apply isWord_not_slash|].
Qed.

Lemma Split_item_path w d :
  allChars isWord w = true → allChars isDigit d = true →
  Split (String "/" (w +:+ String "/" d)) "/" = [EmptyString; w; d].
Proof.
  intros Hw Hd. rewrite Split_cons, Ascii.eqb_refl. f_equal. rewrite Split_first.
  - f_equal. apply Split_whole.
    by apply (allChars_impl isDigit); [apply isDigit_not_slash|].
  - by apply (allChars_impl isWord); [apply isWord_not_slash|].
Qed.

Lemma allChars_word s : allChars (accepts AWord) s = allChars isWord s.
Proof. reflexivity. Qed.

Lemma allChars_digit s : allChars (accepts (ARange "0" "9")) s = allChars isDigit s.
Proof. reflexivity. Qed.

(** The paths of the three table patterns. *)
Lemma MatchString_items_path path :
  MatchString [(ALit "/", false); (AWord, true)] path = true ↔
  ∃ w, path = String "/" w ∧ allChars isWord w = true.
Proof.
  split.
  - destruct path as [|c path]; [done|].
    rewrite MatchString_one, MatchString_star_all, allChars_word.
    intros [Hc Hw]%andb_prop. cbn [accepts] in Hc. apply Ascii.eqb_eq in Hc as <-.
    by exists path.
  - intros (w & -> & Hw). rewrite MatchString_one, MatchString_star_all, allChars_word.
    cbn [accepts]. by rewrite Ascii.eqb_refl, Hw.
Qed.

Lemma MatchString_item_path path :
  MatchString [(ALit "/", false); (AWord, true); (ALit "/", false);
               (ARange "0" "9", true)] path = true ↔
  ∃ w d, path = String "/" (w +:+ String "/" d)
         ∧ allChars isWord w = true ∧ allChars isDigit d = true.
Proof.
  split.
  - destruct path as [|c path]; [done|]. rewrite MatchString_one.
    intros [Hc Hrest]%andb_prop. cbn [accepts] in Hc. apply Ascii.eqb_eq in Hc as <-.
    apply MatchString_run_then_slash in Hrest as (w & d & -> & Hw & Hd).
    rewrite MatchString_star_all, allChars_digit in Hd. rewrite allChars_word in Hw.
    by exists w, d.
  - intros (w & d & -> & Hw & Hd). rewrite MatchString_one. cbn [accepts].
    rewrite Ascii.eqb_refl. cbn [andb]. apply MatchString_run_then_slash.
    exists w, d. by rewrite MatchString_star_all, allChars_word, allChars_digit.
Qed.

Lemma MatchString_create_path path :
  MatchString [(ALit "/", false); (AWord, true); (ALit "/", false)] path = true ↔
  ∃ w, path = String "/" (w +:+ "/") ∧ allChars isWord w = true.
Proof.
  split.
  - destruct path as [|c path]; [done|]. rewrite MatchString_one.
    intros [Hc Hrest]%andb_prop. cbn [accepts] in Hc. apply Ascii.eqb_eq in Hc as <-.
    apply MatchString_run_then_slash in Hrest as (w & t & -> & Hw & Ht).
    rewrite allChars_word in Hw. destruct t; [|done]. by exists w.
  - intros (w & -> & Hw). rewrite MatchString_one. cbn [accepts].
    rewrite Ascii.eqb_refl. cbn [andb]. apply MatchString_run_then_slash.
    exists w, EmptyString. by rewrite allChars_word.
Qed.

Lemma getTableName_segment exp path w parts :
  Split path "/" = EmptyString :: w :: parts →
  getTableName exp path =
  Return (if isValidTableName exp w then (w, None)
          else (EmptyString, Some (Errorf "unknown table"))).
Proof.
  intros Hsplit. unfold getTableName, index. rewrite Hsplit. cbn.
  by destruct (isValidTableName exp w).
Qed.

(** X6. On every request that one of the registered routes applies to,
    other than the root route, the path has a table segment made of word
    characters and [getTableName] does not panic: it returns that segment
    when it is a known table, and the error [unknown table] otherwise. On
    the routes with an id (get, delete, update) and on the create route
    [getId] does not panic either: it returns the decimal digits after the
    second slash, none on the create route. *)
Theorem routed_paths_have_segments exp rt i route r :
  routes (router exp) = [] →
  initRoutes exp = Return rt →
  routes rt !! i = Some route →
  applies route r →
  (i = 0 ∧ ReqPath r = "/")
  ∨ ∃ w, allChars isWord w = true
         ∧ (∀ exp', getTableName exp' (ReqPath r) =
              Return (if isValidTableName exp' w then (w, None)
                      else (EmptyString, Some (Errorf "unknown table"))))
         ∧ (i = 1
            ∨ ∃ d, allChars isDigit d = true
                   ∧ (i = 3 → d = EmptyString)
                   ∧ ∀ exp', getId exp' (ReqPath r) = Return d).
Proof.
  intros Hempty Hinit Hi [_ Hp]. rewrite (initRoutes_routes _ Hempty) in Hinit.
  injection Hinit as <-. cbn [routes] in Hi.
  destruct i as [|[|[|[|[|[|i]]]]]]; try done; cbn in Hi; simplify_eq;
    cbn [Pattern] in Hp.
  - left. by apply MatchString_root in Hp.
  - right. apply MatchString_items_path in Hp as (w & -> & Hw). exists w.
    split; [done|]. split; [|by left]. intros exp'.
    by apply (getTableName_segment _ _ _ []), Split_table_path.
  - right. apply MatchString_item_path in Hp as (w & d & -> & Hw & Hd). exists w.
    split; [done|]. split.
    + intros exp'. by apply (getTableName_segment _ _ _ [d]), Split_item_path.
    + right. exists d. split; [done|]. split; [done|]. intros exp'.
      unfold getId, index. by rewrite Split_item_path.
  - right. apply MatchString_create_path in Hp as (w & -> & Hw). exists w.
    split; [done|]. split.
    + intros exp'.
      by apply (getTableName_segment _ _ _ [EmptyString]), Split_item_path.
    + right. exists EmptyString. split; [done|]. split; [done|]. intros exp'.
      unfold getId, index. by rewrite Split_item_path.
  - right. apply MatchString_item_path in Hp as (w & d & -> & Hw & Hd). exists w.
    split; [done|]. split.
    + intros exp'. by apply (getTableName_segment _ _ _ [d]), Split_item_path.
    + right. exists d. split; [done|]. split; [done|]. intros exp'.
      unfold getId, index. by rewrite Split_item_path.
  - right. apply MatchString_item_path in Hp as (w & d & -> & Hw & Hd). exists w.
    split; [done|]. split.
    + intros exp'. by apply (getTableName_segment _ _ _ [d]), Split_item_path.
    + right. exists d. split; [done|]. split; [done|]. intros exp'.
      unfold getId, index. by rewrite Split_item_path.
Qed.

Lemma routed_paths_have_segments_witness :
  getTableName servingExplorer "/users/12" = Return ("users", None)
  ∧ getId servingExplorer "/users/12" = Return "12".
Proof.
  assert (initRoutes usersExplorer = Return (router servingExplorer)) as Hinit.
  { by rewrite (initRoutes_routes usersExplorer eq_refl). }
  set (route := {| Method := MethodPost;
                   Pattern := [(ALit "/", false); (AWord, true); (ALit "/", false);
                               (ARange "0" "9", true)];
                   Handler := handlerUpdateItem usersExplorer |}).
  assert (routes (router servingExplorer) !! 5 = Some route) as Hroute.
  { by rewrite servingExplorer_routes. }
  assert (applies route (request MethodPost "/users/12")) as Happlies by by split.
  destruct (routed_paths_have_segments usersExplorer (router servingExplorer) 5
              route (request MethodPost "/users/12") eq_refl Hinit Hroute Happlies)
    as [[Hroot _]|(w & _ & Htable & [Hitems|(d & _ & _ & Hid)])].
  - discriminate Hroot.
  - discriminate Hitems.
  - split; reflexivity.
Defined.

(** ** Dispatch over the registered routes *)

Lemma serve_cons_applies route rest r :
  applies route r → serve (route :: rest) r = Handler route r.
Proof.
  intros [Hm Hp]. cbn [serve]. rewrite Hm, String.eqb_refl. cbn [negb]. by rewrite Hp.
Qed.

Lemma serve_cons_skip route rest r :
  ¬ applies route r → serve (route :: rest) r = serve rest r.
Proof.
  intros Hroute. change (route :: rest) with ([route] ++ rest)%list.
  apply serve_skip. by apply Forall_cons.
Qed.

Lemma root_rejects_longer_path s :
  s ≠ EmptyString → MatchString [(ALit "/", false)] (String "/" s) = false.
Proof.
  intros Hs. destruct (MatchString _ _) eqn:Hp; [|done].
  apply MatchString_root in Hp. by injection Hp.
Qed.

Lemma items_rejects_second_slash w t :
  MatchString [(ALit "/", false); (AWord, true)] (String "/" (w +:+ String "/" t)) = false.
Proof.
  destruct (MatchString _ _) eqn:Hp; [|done].
  apply MatchString_items_path in Hp as (w' & [= <-] & Hw).
  rewrite allChars_app in Hw. apply andb_prop in Hw as [_ Hw]. discriminate Hw.
Qed.

(** X7. How the registered routes dispatch the table URLs. For a table
    segment [w] of word characters and an id [d] of decimal digits, which
    may be empty: [GET /w/d] runs [handlerGetTableItem], [DELETE /w/d]
    runs [handlerDeleteItem], [POST /w/d] runs [handlerUpdateItem],
    [PUT /w/] runs [handlerCreateItem], and [GET /w] with [w] not empty
    runs [handlerGetTableItems]. In particular [GET /w/] is a lookup with
    an empty id, not a listing. *)
Theorem table_urls_are_dispatched exp rt exp' w d query body :
  routes (router exp) = [] →
  initRoutes exp = Return rt →
  router exp' = rt →
  allChars isWord w = true →
  allChars isDigit d = true →
  let req method path :=
    {| ReqMethod := method; ReqPath := path; ReqQuery := query; ReqBody := body |} in
  let item := String "/" (w +:+ String "/" d) in
  ServeHTTP exp' (req MethodGet item) = handlerGetTableItem exp (req MethodGet item)
  ∧ ServeHTTP exp' (req MethodDelete item) = handlerDeleteItem exp (req MethodDelete item)
  ∧ ServeHTTP exp' (req MethodPost item) = handlerUpdateItem exp (req MethodPost item)
  ∧ ServeHTTP exp' (req MethodPut (String "/" (w +:+ "/")))
    = handlerCreateItem exp (req MethodPut (String "/" (w +:+ "/")))
  ∧ (w ≠ EmptyString →
     ServeHTTP exp' (req MethodGet (String "/" w))
     = handlerGetTableItems exp (req MethodGet (String "/" w))).
Proof.
  intros Hempty Hinit Hrt Hw Hd. cbn zeta. rewrite (initRoutes_routes _ Hempty) in Hinit.
  injection Hinit as <-. unfold ServeHTTP. rewrite Hrt. cbn [routes].
  assert (MatchString [(ALit "/", false); (AWord, true); (ALit "/", false);
                       (ARange "0" "9", true)] (String "/" (w +:+ String "/" d))
          = true) as Hitem.
  { apply MatchString_item_path. by exists w, d. }
  assert (w +:+ String "/" d ≠ EmptyString) as Hlong by by destruct w.
  split; [|split; [|split; [|split]]].
  - rewrite serve_cons_skip.
    2:{ intros [_ Hp]. cbn [Pattern ReqPath] in Hp.
        by rewrite root_rejects_longer_path in Hp. }
    rewrite serve_cons_skip.
    2:{ intros [_ Hp]. cbn [Pattern ReqPath] in Hp.
        by rewrite items_rejects_second_slash in Hp. }
    by rewrite serve_cons_applies.
  - do 4 (rewrite serve_cons_skip; [|by intros [Hm _]]).
    by rewrite serve_cons_applies.
  - do 5 (rewrite serve_cons_skip; [|by intros [Hm _]]).
    by rewrite serve_cons_applies.
  - do 3 (rewrite serve_cons_skip; [|by intros [Hm _]]).
    rewrite serve_cons_applies; [done|]. split; [done|].
    apply MatchString_create_path. by exists w.
  - intros Hne. rewrite serve_cons_skip.
    2:{ intros [_ Hp]. cbn [Pattern ReqPath] in Hp.
        by rewrite root_rejects_longer_path in Hp. }
    rewrite serve_cons_applies; [done|]. split; [done|].
    apply MatchString_items_path. by exists w.
Qed.

Lemma table_urls_are_dispatched_witness :
  ServeHTTP servingExplorer (request MethodGet "/users/")
    = handlerGetTableItem usersExplorer (request MethodGet "/users/")
  ∧ ServeHTTP servingExplorer (request MethodPost "/users/12")
    = handlerUpdateItem usersExplorer (request MethodPost "/users/12").
Proof.
  assert (initRoutes usersExplorer = Return (router servingExplorer)) as Hinit.
  { by rewrite (initRoutes_routes usersExplorer eq_refl). }
  split.
  - exact (proj1 (table_urls_are_dispatched usersExplorer (router servingExplorer)
             servingExplorer "users" EmptyString ∅ (∅, None)
             eq_refl Hinit eq_refl eq_refl eq_refl)).
  - exact (proj1 (proj2 (proj2 (table_urls_are_dispatched usersExplorer
             (router servingExplorer) servingExplorer "users" "12" ∅ (∅, None)
             eq_refl Hinit eq_refl eq_refl eq_refl)))).
Defined.

(** X8. A request whose method is none of GET, PUT, DELETE and POST is
    answered 404 with an empty body, whatever its path. *)
Theorem other_methods_are_not_found exp rt exp' r :
  routes (router exp) = [] →
  initRoutes exp = Return rt →
  router exp' = rt →
  ReqMethod r ∉ [MethodGet; MethodPut; MethodDelete; MethodPost] →
  ServeHTTP exp' r = Return {| Status := StatusNotFound; Body := NoBody |}.
Proof.
  intros Hempty Hinit Hrt Hmethod. rewrite (initRoutes_routes _ Hempty) in Hinit.
  injection Hinit as <-. unfold ServeHTTP. rewrite Hrt. cbn [routes].
  rewrite !elem_of_cons, elem_of_nil in Hmethod.
  do 6 (rewrite serve_cons_skip;
    [|intros [Hm _]; cbn [Method] in Hm; symmetry in Hm; tauto]).
  done.
Qed.

Lemma other_methods_are_not_found_witness :
  ServeHTTP servingExplorer (request "PATCH" "/users/12")
    = Return {| Status := StatusNotFound; Body := NoBody |}.
Proof.
  assert (initRoutes usersExplorer = Return (router servingExplorer)) as Hinit.
  { by rewrite (initRoutes_routes usersExplorer eq_refl). }
  apply (other_methods_are_not_found usersExplorer (router servingExplorer));
    [reflexivity|exact Hinit|reflexivity|].
  cbn [ReqMethod request]. rewrite !elem_of_cons, elem_of_nil.
  intros [?|[?|[?|[?|[]]]]]; discriminate.
Defined.

(** ** Unknown tables *)

Lemma getTableName_unknown exp path t :
  Split path "/" !! 1 = Some t →
  t ∉ TableNames exp →
  getTableName exp path = Return (EmptyString, Some (Errorf "unknown table")).
Proof.
  intros Hsegment Hunknown. unfold getTableName, index. rewrite Hsegment. cbn.
  destruct (isValidTableName exp t) eqn:Hvalid; [|done].
  destruct Hunknown. unfold isValidTableName in Hvalid.
  apply existsb_exists in Hvalid as (name & Hin & ->%String.eqb_eq).
  by apply list_elem_of_In.
Qed.

(** X9. When the first path segment is not one of [TableNames], each of
    the five table handlers answers 404 with the error [unknown table],
    before it reads the body or asks the engine anything. *)
Theorem unknown_table_is_not_found exp r t :
  Split (ReqPath r) "/" !! 1 = Some t →
  t ∉ TableNames exp →
  let notFound := respond StatusNotFound (ErrorResponse "unknown table") in
  handlerGetTableItems exp r = notFound
  ∧ handlerGetTableItem exp r = notFound
  ∧ handlerCreateItem exp r = notFound
  ∧ handlerUpdateItem exp r = notFound
  ∧ handlerDeleteItem exp r = notFound.
Proof.
  intros Hsegment Hunknown notFound.
  pose proof (getTableName_unknown _ _ _ Hsegment Hunknown) as Htable.
  unfold handlerGetTableItems, handlerGetTableItem, handlerCreateItem,
    handlerUpdateItem, handlerDeleteItem.
  rewrite Htable. by repeat split.
Qed.

Lemma unknown_table_is_not_found_witness :
  handlerDeleteItem usersExplorer (request MethodDelete "/orders/3")
    = respond StatusNotFound (ErrorResponse "unknown table").
Proof.
  refine (proj2 (proj2 (proj2 (proj2 (unknown_table_is_not_found usersExplorer
            (request MethodDelete "/orders/3") "orders" eq_refl _))))).
  cbn. rewrite elem_of_cons, elem_of_nil. intros [?|[]]. discriminate.
Defined.

(** ** The schema catalog *)

Lemma scanTableNames_all rows tableNames :
  Forall scansString rows →
  scanTableNames rows tableNames = ((tableNames ++ (scannedName <$> rows))%list, None).
Proof.
  intros Hrows. revert tableNames.
  induction Hrows as [|row rows Hrow _ IH]; intros tableNames.
  { cbn. by rewrite app_nil_r. }
  cbn [scanTableNames]. unfold scansString in Hrow.
  destruct (Scan row [KString]) as [captures err] eqn:Hscan. cbn in Hrow. subst err.
  rewrite IH, fmap_cons, <- app_assoc. cbn. unfold scannedName. by rewrite Hscan.
Qed.

Lemma scanTableNames_stops pre bad post e tableNames :
  Forall scansString pre → (Scan bad [KString]).2 = Some e →
  scanTableNames (pre ++ bad :: post) tableNames
    = ((tableNames ++ (scannedName <$> pre))%list, Some e).
Proof.
  intros Hpre Hbad. revert tableNames.
  induction Hpre as [|row rows Hrow _ IH]; intros tableNames.
  { cbn. destruct (Scan bad [KString]) as [captures err]. cbn in Hbad. subst err.
    by rewrite app_nil_r. }
  cbn [scanTableNames app]. unfold scansString in Hrow.
  destruct (Scan row [KString]) as [captures err] eqn:Hscan. cbn in Hrow. subst err.
  rewrite IH, fmap_cons, <- app_assoc. cbn. unfold scannedName. by rewrite Hscan.
Qed.

(** X10. When the listing query succeeds, [getTableNames] returns the
    name scanned from each row, in row order, with a nil error if every
    row scans; at the first row whose [Scan] fails it stops and returns
    that error together with the names of the rows before it. *)
Theorem getTableNames_lists_rows exp rows :
  Query (DB exp) "SHOW TABLES" [] = inr rows →
  (Forall scansString (Next rows) →
     getTableNames exp = (scannedName <$> Next rows, None))
  ∧ (∀ pre bad post e,
       Next rows = (pre ++ bad :: post)%list →
       Forall scansString pre →
       (Scan bad [KString]).2 = Some e →
       getTableNames exp = (scannedName <$> pre, Some e)).
Proof.
  intros Hquery. unfold getTableNames. rewrite Hquery. split.
  - intros Hrows. by rewrite scanTableNames_all.
  - intros pre bad post e -> Hpre Hbad. by rewrite (scanTableNames_stops _ _ _ e).
Qed.

Lemma getTableNames_lists_rows_witness :
  getTableNames (newExplorer brokenColumnsDB) = (["users"; "orders"], None)
  ∧ getTableNames (newExplorer brokenListingDB)
    = (["users"], Some (Errorf "sql: Scan error on column index 0")).
Proof.
  split.
  - refine (proj1 (getTableNames_lists_rows (newExplorer brokenColumnsDB)
              {| Columns := (["Tables_in_db"], None); ColumnTypes := ([], None);
                 Next := [stringRow "users"; stringRow "orders"] |} eq_refl) _).
    repeat (apply Forall_cons; split; [reflexivity|]). apply Forall_nil_2.
  - refine (proj2 (getTableNames_lists_rows (newExplorer brokenListingDB)
              {| Columns := (["Tables_in_db"], None); ColumnTypes := ([], None);
                 Next := [stringRow "users"; failingRow; stringRow "orders"] |} eq_refl)
              [stringRow "users"] failingRow [stringRow "orders"] _ eq_refl _ eq_refl).
    apply Forall_cons. split; [reflexivity|apply Forall_nil_2].
Defined.

Lemma getColumnTypes_DB exp exp' table :
  DB exp = DB exp' → getColumnTypes exp table = getColumnTypes exp' table.
Proof. unfold getColumnTypes. by intros ->. Qed.

(** What [initTableColumns] leaves in the cache when it returns. *)
Lemma initTableColumns_cache exp tables cache cache' t :
  initTableColumns exp tables cache = Return cache' →
  (t ∈ tables → ∃ columns, cache' !! t = Some columns
                           ∧ getColumnTypes exp t = (columns, None))
  ∧ (t ∉ tables → cache' !! t = cache !! t).
Proof.
  revert cache. induction tables as [|table tables IH]; intros cache Hinit.
  { cbn in Hinit. injection Hinit as <-. split; [|done].
    intros Ht. by apply elem_of_nil in Ht. }
  cbn [initTableColumns] in Hinit.
  destruct (getColumnTypes exp table) as [columns [e|]] eqn:Hcols; [done|].
  destruct (IH _ Hinit) as [Hin Hout]. split.
  - intros Ht. destruct (decide (t ∈ tables)) as [|Hnot]; [by apply Hin|].
    apply elem_of_cons in Ht as [->|Ht]; [|done].
    exists columns. by rewrite Hout, lookup_insert_eq.
  - intros [Hne Hnot]%not_elem_of_cons. by rewrite Hout, lookup_insert_ne.
Qed.

Lemma initTableColumns_panics exp pre t post cache columns e :
  (∀ t', t' ∈ pre → (getColumnTypes exp t').2 = None) →
  getColumnTypes exp t = (columns, Some e) →
  initTableColumns exp (pre ++ t :: post) cache = Panic (Error e).
Proof.
  revert cache. induction pre as [|t' pre IH]; intros cache Hpre Hbad.
  { cbn. by rewrite Hbad. }
  cbn [initTableColumns app].
  pose proof (Hpre t' (list_elem_of_here _ _)) as Hok.
  destruct (getColumnTypes exp t') as [columns' err]. cbn in Hok. subst err.
  apply IH; [|done]. intros t'' Ht''. apply Hpre. by apply list_elem_of_further.
Qed.

Lemma isValidTableName_elem exp t :
  isValidTableName exp t = true ↔ t ∈ TableNames exp.
Proof.
  unfold isValidTableName. rewrite existsb_exists. split.
  - intros (name & Hin & ->%String.eqb_eq). by apply list_elem_of_In.
  - intros Hin. exists t. split; [by apply list_elem_of_In|apply String.eqb_refl].
Qed.

(** X11. An explorer that [NewDbExplorer] returns with a nil error
    keeps the engine it was given, lists the tables [getTableNames]
    returned, caches column types for exactly those tables, and has the
    six routes. For every table name it accepts as valid,
    [getColumnTypesFromCache] succeeds, with the column types the engine
    reports for that table: the cache-miss answer of the handlers cannot
    occur on it. *)
Theorem NewDbExplorer_cache_covers_tables db exp :
  NewDbExplorer db = Return (exp, None) →
  DB exp = db
  ∧ getTableNames (newExplorer db) = (TableNames exp, None)
  ∧ (∀ t, is_Some (TableColumns exp !! t) ↔ t ∈ TableNames exp)
  ∧ (∀ t, isValidTableName exp t = true →
       ∃ columns, getColumnTypesFromCache exp t = (columns, None)
                  ∧ getColumnTypes exp t = (columns, None))
  ∧ length (routes (router exp)) = 6.
Proof.
  unfold NewDbExplorer. fold (newExplorer db).
  destruct (getTableNames (newExplorer db)) as [tableNames [e|]] eqn:Hnames; [done|].
  cbn [TableNames TableColumns router newExplorer].
  destruct (initTableColumns _ tableNames ∅) as [cache|msg] eqn:Hcache; [|done].
  cbn [mbind result_bind]. rewrite initRoutes_routes by done.
  cbn [mbind result_bind mret result_ret]. intros [= <-].
  cbn [DB TableNames TableColumns router routes].
  assert (∀ t, t ∈ tableNames →
            ∃ columns, cache !! t = Some columns
                       ∧ getColumnTypes (newExplorer db) t = (columns, None)) as Hin.
  { intros t Ht. destruct (initTableColumns_cache _ _ _ _ t Hcache) as [Hin _].
    destruct (Hin Ht) as (columns & Hlookup & Hcolumns). exists columns.
    split; [done|]. by rewrite <- Hcolumns. }
  split; [done|]. split; [done|]. split; [|split; [|done]].
  - intros t. split.
    + intros Hsome. destruct (decide (t ∈ tableNames)) as [|Hnot]; [done|].
      destruct (initTableColumns_cache _ _ _ _ t Hcache) as [_ Hout].
      rewrite (Hout Hnot), lookup_empty in Hsome. by destruct Hsome.
    + intros Ht. destruct (Hin t Ht) as (columns & -> & _). by eexists.
  - intros t Hvalid. apply isValidTableName_elem in Hvalid. cbn [TableNames] in Hvalid.
    destruct (Hin t Hvalid) as (columns & Hlookup & Hcolumns). exists columns.
    unfold getColumnTypesFromCache. cbn [TableColumns]. rewrite Hlookup.
    split; [done|]. by rewrite <- Hcolumns.
Qed.

Lemma NewDbExplorer_cache_covers_tables_witness :
  getColumnTypesFromCache servingExplorer "users" = (usersColumns, None)
  ∧ length (routes (router servingExplorer)) = 6.
Proof.
  destruct (NewDbExplorer_cache_covers_tables usersDB servingExplorer eq_refl)
    as (_ & _ & _ & Hcache & Hroutes).
  split; [|exact Hroutes].
  by destruct (Hcache "users" eq_refl) as (columns & -> & [= <-]).
Defined.

(** X12. When the listing succeeds but the column types of one listed
    table cannot be read, those of the tables before it being readable,
    [NewDbExplorer] does not return an error: it panics, with the text of
    that failure. *)
Theorem NewDbExplorer_panics_on_unreadable_table db pre t post columns e :
  getTableNames (newExplorer db) = ((pre ++ t :: post)%list, None) →
  (∀ t', t' ∈ pre → (getColumnTypes (newExplorer db) t').2 = None) →
  getColumnTypes (newExplorer db) t = (columns, Some e) →
  NewDbExplorer db = Panic (Error e).
Proof.
  intros Hnames Hpre Hbad. unfold NewDbExplorer. fold (newExplorer db).
  rewrite Hnames. cbn [TableNames TableColumns router newExplorer].
  rewrite (initTableColumns_panics _ pre t post _ columns e); [done| |].
  - intros t' Ht'. by rewrite <- (Hpre t' Ht').
  - by rewrite <- Hbad.
Qed.

Lemma NewDbExplorer_panics_on_unreadable_table_witness :
  NewDbExplorer brokenColumnsDB = Panic "Error 1142: SELECT command denied".
Proof.
  apply (NewDbExplorer_panics_on_unreadable_table brokenColumnsDB ["users"] "orders" []
           [] (Errorf "Error 1142: SELECT command denied")); [reflexivity| |reflexivity].
  intros t' Ht'. apply elem_of_cons in Ht' as [->|Ht']; [reflexivity|].
  by apply elem_of_nil in Ht'.
Defined.

(** ** Statements and their arguments *)

Section range_order.
Context (form : gmap string Value) (kvs : list (string * Value)).
Hypothesis Hperm : kvs ≡ₚ map_to_list form.

Lemma rangeIn_NoDup : NoDup (rangeIn kvs).1.
Proof.
  unfold rangeIn. cbn [fst]. rewrite Hperm. apply NoDup_fst_map_to_list.
Qed.

Lemma rangeIn_keys k : k ∈ (rangeIn kvs).1 ↔ is_Some (form !! k).
Proof.
  unfold rangeIn. cbn [fst]. rewrite Hperm. apply rangeForm_keys.
Qed.

Lemma rangeIn_pairs i k :
  (rangeIn kvs).1 !! i = Some k →
  ∃ v, (rangeIn kvs).2 !! i = Some v ∧ form !! k = Some v.
Proof.
  unfold rangeIn. cbn [fst snd]. rewrite !list_lookup_fmap.
  destruct (kvs !! i) as [[k' v]|] eqn:Hi; [|done].
  cbn. intros [= <-]. exists v. split; [done|].
  apply elem_of_map_to_list. rewrite <- Hperm. by eapply list_elem_of_lookup_2.
Qed.

Lemma rangeIn_length : length (rangeIn kvs).2 = length (rangeIn kvs).1.
Proof. unfold rangeIn. cbn [fst snd]. by rewrite !length_fmap. Qed.

End range_order.

Lemma nameFirst_entries : nameFirst ≡ₚ map_to_list twoFields.
Proof.
  unfold nameFirst, twoFields. rewrite map_to_list_insert by done.
  by rewrite map_to_list_singleton.
Qed.

Lemma ageFirst_entries : ageFirst ≡ₚ map_to_list twoFields.
Proof. rewrite <- nameFirst_entries. apply perm_swap. Qed.

(** X13. Whatever the order in which the range of [createItem] visits
    the form, and whatever the order in which the range of [updateItem]
    does, each of the two statements lists every key of the form exactly
    once and binds to its i-th placeholder the value the form holds for
    its i-th listed column. The INSERT names the columns in its column
    list and has as many placeholders as arguments; the UPDATE names them
    in its SET list, one [<column> = ?] each in the same order, and binds
    the primary-key value last, to the placeholder of its WHERE clause.
    The two statements need not list the columns in the same order. The
    statements that [createItem] and [updateItem] execute are those of
    one such order. *)
Theorem statements_bind_each_column table form primaryKey pkValue
    (kvs kvs' : list (string * Value)) :
  kvs ≡ₚ map_to_list form →
  kvs' ≡ₚ map_to_list form →
  let columns := (createItemStatementIn table kvs).1 in
  let query := (createItemStatementIn table kvs).2.1 in
  let values := (createItemStatementIn table kvs).2.2 in
  let columns' := (updateItemStatementIn table kvs' primaryKey pkValue).1 in
  let query' := (updateItemStatementIn table kvs' primaryKey pkValue).2.1 in
  let args := (updateItemStatementIn table kvs' primaryKey pkValue).2.2 in
  (NoDup columns
   ∧ (∀ k, k ∈ columns ↔ is_Some (form !! k))
   ∧ length values = length columns
   ∧ (∀ i k, columns !! i = Some k → ∃ v, values !! i = Some v ∧ form !! k = Some v)
   ∧ query = "INSERT INTO " +:+ table +:+ " (" +:+ String.concat ", " columns
             +:+ ") VALUES (" +:+ String.concat ", " (replicate (length values) "?")
             +:+ ")")
  ∧ (NoDup columns'
     ∧ (∀ k, k ∈ columns' ↔ is_Some (form !! k))
     ∧ length args = S (length columns')
     ∧ (∀ i k, columns' !! i = Some k → ∃ v, args !! i = Some v ∧ form !! k = Some v)
     ∧ args !! length columns' = Some pkValue
     ∧ query' = "UPDATE " +:+ table +:+ " SET "
                +:+ String.concat ", " ((λ c, c +:+ " = ?") <$> columns')
                +:+ " WHERE " +:+ primaryKey +:+ " = ?")
  ∧ (∃ order, order ≡ₚ map_to_list form
       ∧ createItemStatement table form = createItemStatementIn table order)
  ∧ (∃ order, order ≡ₚ map_to_list form
       ∧ updateItemStatement table form primaryKey pkValue
         = updateItemStatementIn table order primaryKey pkValue).
Proof.
  intros Hperm Hperm'. unfold createItemStatementIn, updateItemStatementIn.
  pose proof (rangeIn_NoDup form kvs Hperm) as Hnodup.
  pose proof (rangeIn_keys form kvs Hperm) as Hkeys.
  pose proof (rangeIn_pairs form kvs Hperm) as Hpairs.
  pose proof (rangeIn_length kvs) as Hlength.
  pose proof (rangeIn_NoDup form kvs' Hperm') as Hnodup'.
  pose proof (rangeIn_keys form kvs' Hperm') as Hkeys'.
  pose proof (rangeIn_pairs form kvs' Hperm') as Hpairs'.
  pose proof (rangeIn_length kvs') as Hlength'.
  destruct (rangeIn kvs) as [columnNames values].
  destruct (rangeIn kvs') as [columnNames' values']. cbn [fst snd] in *.
  split; [|split; [|split]].
  - rewrite Hlength. split; [done|]. split; [done|]. split; [done|]. by split.
  - split; [done|]. split; [done|]. split; [|split; [|split; [|done]]].
    + rewrite length_app, Hlength'. cbn. lia.
    + intros i k Hk. destruct (Hpairs' i k Hk) as (v & Hv & Hform).
      exists v. split; [|done]. by apply lookup_app_l_Some.
    + rewrite <- Hlength'. by rewrite lookup_app_r, Nat.sub_diag.
  - by exists (map_to_list form).
  - by exists (map_to_list form).
Qed.

(** The INSERT visits [name] first, the UPDATE [age]: each binds its
    values in its own order. *)
Lemma statements_bind_each_column_witness :
  (createItemStatementIn "users" nameFirst).2
    = ("INSERT INTO users (name, age) VALUES (?, ?)", [VString "bo"; seven])
  ∧ (updateItemStatementIn "users" ageFirst "id" (VString "1")).2
    = ("UPDATE users SET age = ?, name = ? WHERE id = ?",
       [seven; VString "bo"; VString "1"])
  ∧ (∀ i k, ["age"; "name"] !! i = Some k →
       ∃ v, [seven; VString "bo"; VString "1"] !! i = Some v ∧ twoFields !! k = Some v).
Proof.
  destruct (statements_bind_each_column "users" twoFields "id" (VString "1")
              nameFirst ageFirst nameFirst_entries ageFirst_entries)
    as (_ & (_ & _ & _ & Hpairs & _) & _).
  split; [reflexivity|]. split; [reflexivity|]. exact Hpairs.
Defined.

(** ** Reading rows *)

Lemma fillRecord_frame i names kinds captures res k :
  k ∉ names → fillRecord i names kinds captures res !! k = res !! k.
Proof.
  revert i kinds res. induction names as [|name names IH]; intros i kinds res Hk; [done|].
  apply not_elem_of_cons in Hk as [Hne Hk].
  destruct kinds as [|kind kinds]; [done|]. cbn [fillRecord].
  by rewrite IH, lookup_insert_ne.
Qed.

Lemma fillRecord_lookup i names kinds captures res j k kind :
  NoDup names → names !! j = Some k → kinds !! j = Some kind →
  fillRecord i names kinds captures res !! k
    = Some (scannedValue kind (captures !! (i + j))).
Proof.
  revert i kinds res j.
  induction names as [|name names IH]; intros i kinds res j Hnodup Hname Hkind; [done|].
  apply NoDup_cons in Hnodup as [Hfresh Hnodup].
  destruct kinds as [|kind' kinds]; [done|]. cbn [fillRecord].
  destruct j as [|j]; cbn in Hname, Hkind; simplify_eq.
  - rewrite fillRecord_frame by done. by rewrite lookup_insert_eq, Nat.add_0_r.
  - rewrite (IH _ _ _ j) by done. by rewrite Nat.add_succ_r.
Qed.

Lemma fillRecord_keys {A} i (f : A → string) (g : A → captureKind) l captures res k :
  is_Some (fillRecord i (f <$> l) (g <$> l) captures res !! k)
  ↔ is_Some (res !! k) ∨ k ∈ f <$> l.
Proof.
  revert i res. induction l as [|x l IH]; intros i res.
  { cbn. rewrite elem_of_nil. tauto. }
  cbn [fmap list_fmap fillRecord]. rewrite IH, elem_of_cons.
  destruct (decide (k = f x)) as [->|Hne].
  - rewrite lookup_insert_eq. split; [tauto|]. intros _. left. by eexists.
  - rewrite lookup_insert_ne by done. tauto.
Qed.

(** X14. A successful [getItem] returns a record whose keys are the
    names of the table's cached columns. With distinct column names, the
    entry of each column is what [Scan] stored in its position: for a
    string column a NULL reads as nil and anything else as the string; for
    any other column the value the driver stored is passed on as it is. *)
Theorem getItem_decodes exp table pkName pkValue columnTypes captures :
  getColumnTypesFromCache exp table = (columnTypes, None) →
  NoDup (Name <$> columnTypes) →
  let row := QueryRow (DB exp)
               ("SELECT * FROM " +:+ table +:+ " WHERE " +:+ pkName +:+ " = ?")
               [pkValue] in
  RowErr row = None →
  RowScan row (captureKindOf <$> columnTypes) = (captures, None) →
  ∃ res,
    getItem exp table pkName pkValue = (res, None)
    ∧ (∀ k, is_Some (res !! k) ↔ k ∈ Name <$> columnTypes)
    ∧ (∀ i c, columnTypes !! i = Some c →
         (isStringType (DatabaseTypeName c) = true →
            (∀ s, captures !! i = Some (CNullString s false) →
               res !! Name c = Some VNil)
            ∧ (∀ s, captures !! i = Some (CNullString s true) →
               res !! Name c = Some (VString s)))
         ∧ (isStringType (DatabaseTypeName c) = false →
            ∀ v, captures !! i = Some (CAny v) → res !! Name c = Some v)).
Proof.
  intros Hcache Hnodup row Herr Hscan. unfold getItem. fold row.
  rewrite Herr, Hcache, Hscan. eexists. split; [reflexivity|]. split.
  - intros k. rewrite fillRecord_keys, lookup_empty. split; [|tauto].
    intros [[? ?]|?]; done.
  - intros i c Hc.
    assert (fillRecord 0 (Name <$> columnTypes) (captureKindOf <$> columnTypes)
              captures ∅ !! Name c
            = Some (scannedValue (captureKindOf c) (captures !! i))) as Hentry.
    { apply (fillRecord_lookup 0 _ _ _ _ i); [done| |];
        by rewrite list_lookup_fmap, Hc. }
    rewrite Hentry. unfold captureKindOf. split.
    + intros ->. split; by intros s ->.
    + intros ->. by intros v ->.
Qed.

Lemma getItem_decodes_witness :
  getItem storedExplorer "users" "id" (VString "1")
  = ({["id" := VInt 1; "name" := VString "bob"; "info" := VNil; "age" := VInt 30]},
     None).
Proof.
  assert (NoDup (Name <$> usersColumns)) as Hnodup.
  { cbn. repeat (apply NoDup_cons; split;
      [rewrite ?elem_of_cons, elem_of_nil; intros ?; intuition discriminate|]).
    apply NoDup_nil_2. }
  destruct (getItem_decodes storedExplorer "users" "id" (VString "1") usersColumns
              [CAny (VInt 1); CNullString "bob" true; CNullString EmptyString false;
               CAny (VInt 30)] eq_refl Hnodup eq_refl eq_refl)
    as (res & Hrun & _ & _).
  rewrite Hrun. injection Hrun as <-. reflexivity.
Defined.

(** X15. Whatever makes [getItem] fail, [handlerGetTableItem] answers
    404 with the error [record not found]: no row, but also a row error
    of the engine, a [Scan] failure, or a table without cached columns. *)
Theorem failed_lookup_is_not_found exp r table id pkName e :
  getTableName exp (ReqPath r) = Return (table, None) →
  getId exp (ReqPath r) = Return id →
  getPrimaryKey exp table = (pkName, None) →
  let row := QueryRow (DB exp)
               ("SELECT * FROM " +:+ table +:+ " WHERE " +:+ pkName +:+ " = ?")
               [VString id] in
  (RowErr row = Some e
   ∨ TableColumns exp !! table = None
   ∨ ∃ columnTypes, TableColumns exp !! table = Some columnTypes
                    ∧ (RowScan row (captureKindOf <$> columnTypes)).2 = Some e) →
  handlerGetTableItem exp r
    = respond StatusNotFound (ErrorResponse "record not found").
Proof.
  intros Htable Hid Hpk row Hfail. unfold handlerGetTableItem.
  rewrite Htable. cbn [mbind result_bind]. rewrite Hid. cbn [mbind result_bind].
  rewrite Hpk. unfold getItem, getColumnTypesFromCache. fold row.
  destruct (RowErr row) as [e'|]; [done|].
  destruct Hfail as [?|[->|(columnTypes & -> & Hscan)]]; [done|done|].
  destruct (RowScan row _) as [captures err]. cbn in Hscan. by subst err.
Qed.

Lemma failed_lookup_is_not_found_witness :
  handlerGetTableItem usersExplorer (request MethodGet "/users/1")
    = respond StatusNotFound (ErrorResponse "record not found").
Proof.
  apply (failed_lookup_is_not_found usersExplorer (request MethodGet "/users/1")
           "users" "1" "id" (Errorf "sql: no rows in result set"));
    [reflexivity..|].
  right. right. exists usersColumns. split; reflexivity.
Defined.

Lemma rowDestinations_from (columnTypes : list ColumnType) (n start : nat) :
  (start + n ≤ length columnTypes)%nat →
  mapM (M := result) (λ i, c ← index columnTypes i; mret (captureKindOf c)) (seq start n)
  = Return (captureKindOf <$> take n (drop start columnTypes)).
Proof.
  revert start. induction n as [|n IH]; intros start Hlen; [done|].
  assert (is_Some (columnTypes !! start)) as [c Hc].
  { apply lookup_lt_is_Some. lia. }
  cbn [seq mapM]. rewrite IH by lia. unfold index. rewrite Hc.
  cbn [mbind result_bind mret result_ret].
  by rewrite (drop_S columnTypes c start Hc).
Qed.

Lemma rowDestinations_enough (columns : list string) (columnTypes : list ColumnType) :
  (length columns ≤ length columnTypes)%nat →
  rowDestinations columns columnTypes
  = Return (captureKindOf <$> take (length columns) columnTypes).
Proof.
  intros Hlen. unfold rowDestinations. by rewrite rowDestinations_from.
Qed.

Lemma scanItems_all rows (columns : list string) (columnTypes : list ColumnType) res :
  (length columns ≤ length columnTypes)%nat →
  let values := captureKindOf <$> take (length columns) columnTypes in
  Forall (λ row, (Scan row values).2 = None) rows →
  scanItems rows columns columnTypes res
  = Return ((res ++ ((λ row, fillRecord 0 columns values (Scan row values).1 ∅)
                       <$> rows))%list, None).
Proof.
  intros Hlen values Hrows. revert res.
  induction Hrows as [|row rows Hrow _ IH]; intros res.
  { cbn. by rewrite app_nil_r. }
  cbn [scanItems]. rewrite rowDestinations_enough by done.
  cbn [mbind result_bind]. fold values.
  destruct (Scan row values) as [captures err] eqn:Hscan. cbn in Hrow. subst err.
  rewrite IH, fmap_cons, <- app_assoc. cbn. by rewrite Hscan.
Qed.

(** X16. [getTableItems] passes the limit and the offset to the engine
    as they are and, when the engine reports at least as many column types
    as column names and every row scans, returns one record per row, in
    row order, each built from what [Scan] stored for that row under the
    same string-or-other rule as [getItem]. *)
Theorem getTableItems_one_record_per_row exp table pagination rows columns columnTypes :
  Query (DB exp) ("SELECT * FROM " +:+ table +:+ " LIMIT ? OFFSET ?")
    [VInt (Limit pagination); VInt (Offset pagination)] = inr rows →
  Columns rows = (columns, None) →
  ColumnTypes rows = (columnTypes, None) →
  (length columns ≤ length columnTypes)%nat →
  let values := captureKindOf <$> take (length columns) columnTypes in
  Forall (λ row, (Scan row values).2 = None) (Next rows) →
  getTableItems exp table pagination
  = Return ((λ row, fillRecord 0 columns values (Scan row values).1 ∅) <$> Next rows,
            None).
Proof.
  intros Hquery Hcolumns Htypes Hlen values Hrows. unfold getTableItems.
  rewrite Hquery, Hcolumns, Htypes. by rewrite scanItems_all.
Qed.

Lemma getTableItems_one_record_per_row_witness :
  getTableItems storedExplorer "users" {| Offset := 0; Limit := 5 |}
  = Return
      ([{["id" := VInt 1; "name" := VString "bob"; "info" := VNil; "age" := VInt 30]};
        {["id" := VInt 2; "name" := VString "ann"; "info" := VString "admin";
          "age" := VInt 41]}], None).
Proof.
  rewrite (getTableItems_one_record_per_row storedExplorer "users"
             {| Offset := 0; Limit := 5 |}
             {| Columns := (Name <$> usersColumns, None);
                ColumnTypes := (usersColumns, None); Next := [bobRow; annRow] |}
             (Name <$> usersColumns) usersColumns eq_refl eq_refl eq_refl).
  - reflexivity.
  - cbn. lia.
  - repeat (apply Forall_cons; split; [reflexivity|]). apply Forall_nil_2.
Defined.

(** ** Deleting *)

(** X17. How [handlerDeleteItem] answers. An unknown table gives 404
    with the error text. For a known table and the id of the path: if the
    primary key cannot be resolved the answer is 500 with an empty body;
    otherwise the handler executes [DELETE FROM <table> WHERE <pk>=?]
    bound to the id, and answers 500 with an empty body if [Exec] or
    [RowsAffected] fails, 200 with [deleted] 1 if the engine reports a
    positive number of affected rows, and 200 with [deleted] 0 if it
    reports none: deleting a row that is not there is a success. *)
Theorem handlerDeleteItem_answers exp r :
  (∀ table e,
     getTableName exp (ReqPath r) = Return (table, Some e) →
     handlerDeleteItem exp r = respond StatusNotFound (ErrorResponse (Error e)))
  ∧ (∀ table id,
     getTableName exp (ReqPath r) = Return (table, None) →
     getId exp (ReqPath r) = Return id →
     (∀ pkName e,
        getPrimaryKey exp table = (pkName, Some e) →
        handlerDeleteItem exp r = respond StatusInternalServerError NoBody)
     ∧ (∀ pkName,
        getPrimaryKey exp table = (pkName, None) →
        let query := "DELETE FROM " +:+ table +:+ " WHERE " +:+ pkName +:+ "=?" in
        (∀ e, Exec (DB exp) query [VString id] = inl e →
           handlerDeleteItem exp r = respond StatusInternalServerError NoBody)
        ∧ (∀ result n e,
             Exec (DB exp) query [VString id] = inr result →
             RowsAffected result = (n, Some e) →
             handlerDeleteItem exp r = respond StatusInternalServerError NoBody)
        ∧ (∀ result n,
             Exec (DB exp) query [VString id] = inr result →
             RowsAffected result = (n, None) →
             (0 < n)%Z →
             handlerDeleteItem exp r
             = respond StatusOK (Response (DeleteTableItemResponse 1)))
        ∧ (∀ result n,
             Exec (DB exp) query [VString id] = inr result →
             RowsAffected result = (n, None) →
             (n ≤ 0)%Z →
             handlerDeleteItem exp r
             = respond StatusOK (Response (DeleteTableItemResponse 0))))).
Proof.
  split.
  - intros table e Htable. unfold handlerDeleteItem. by rewrite Htable.
  - intros table id Htable Hid. unfold handlerDeleteItem, deleteItem.
    rewrite Htable. cbn [mbind result_bind]. rewrite Hid. cbn [mbind result_bind].
    split.
    + by intros pkName e ->.
    + intros pkName ->. cbn zeta. split; [|split; [|split]].
      * by intros e ->.
      * intros result n e -> Hn. by rewrite Hn.
      * intros result n -> Hn Hpos. rewrite Hn.
        by destruct (Z.ltb_spec 0 n); [|lia].
      * intros result n -> Hn Hnone. rewrite Hn.
        by destruct (Z.ltb_spec 0 n); [lia|].
Qed.

(** Deleting user 7: once where the engine finds the row, once where it
    does not. *)
Lemma handlerDeleteItem_answers_witness :
  handlerDeleteItem usersExplorer (request MethodDelete "/users/7")
    = respond StatusOK (Response (DeleteTableItemResponse 1))
  ∧ handlerDeleteItem (keyRowsExplorer ["users"] [stringRow "id"] 0)
      (request MethodDelete "/users/7")
    = respond StatusOK (Response (DeleteTableItemResponse 0)).
Proof.
  split.
  - destruct (handlerDeleteItem_answers usersExplorer (request MethodDelete "/users/7"))
      as [_ Hknown].
    destruct (Hknown "users" "7" eq_refl eq_refl) as [_ Hresolved].
    destruct (Hresolved "id" eq_refl) as (_ & _ & Hfound & _).
    apply (Hfound {| LastInsertId := (1%Z, None); RowsAffected := (1%Z, None) |} 1%Z);
      [reflexivity|reflexivity|lia].
  - destruct (handlerDeleteItem_answers (keyRowsExplorer ["users"] [stringRow "id"] 0)
                (request MethodDelete "/users/7")) as [_ Hknown].
    destruct (Hknown "users" "7" eq_refl eq_refl) as [_ Hresolved].
    destruct (Hresolved "id" eq_refl) as (_ & _ & _ & Habsent).
    apply (Habsent {| LastInsertId := (0%Z, None); RowsAffected := (0%Z, None) |} 0%Z);
      [reflexivity|reflexivity|lia].
Defined.

(** ** Creating and updating *)

(** X18. Once a create request has passed validation, the answer of
    [handlerCreateItem] depends on the INSERT alone, built from the
    sanitized map: if [Exec] or [LastInsertId] fails the answer is 400
    with an empty body, and otherwise 200 with the new id under the name
    of the primary key. *)
Theorem handlerCreateItem_after_validation exp r table columns primaryKey form m :
  reachesValidator exp r table columns primaryKey form →
  processForm form columns primaryKey createOptions = (m, None) →
  let query := (createItemStatement table m).2.1 in
  let values := (createItemStatement table m).2.2 in
  (∀ e, Exec (DB exp) query values = inl e →
     handlerCreateItem exp r = respond StatusBadRequest NoBody)
  ∧ (∀ result id e,
       Exec (DB exp) query values = inr result →
       LastInsertId result = (id, Some e) →
       handlerCreateItem exp r = respond StatusBadRequest NoBody)
  ∧ (∀ result id,
       Exec (DB exp) query values = inr result →
       LastInsertId result = (id, None) →
       handlerCreateItem exp r
       = respond StatusOK (Response (ResultMap {[primaryKey := VInt id]}))).
Proof.
  intros (Htable & Hcols & Hpk & Hbody) Hform. cbn zeta.
  unfold handlerCreateItem, createItem. rewrite Htable. cbn [mbind result_bind].
  rewrite Hcols, Hpk, Hbody, Hform.
  destruct (createItemStatement table m) as [columnNames [query values]].
  cbn [fst snd]. split; [|split].
  - by intros e ->.
  - intros result id e -> Hid. by rewrite Hid.
  - intros result id -> Hid. by rewrite Hid.
Qed.

Lemma handlerCreateItem_after_validation_witness :
  handlerCreateItem usersExplorer
    (createRequest {["name" := VString "bob"; "age" := seven]})
  = respond StatusOK (Response (ResultMap {["id" := VInt 1]})).
Proof.
  refine (proj2 (proj2 (handlerCreateItem_after_validation usersExplorer
            (createRequest {["name" := VString "bob"; "age" := seven]})
            "users" usersColumns "id" {["name" := VString "bob"; "age" := seven]}
            {["name" := VString "bob"; "info" := VNil; "age" := seven]} _ eq_refl))
            {| LastInsertId := (1%Z, None); RowsAffected := (1%Z, None) |} 1%Z
            eq_refl eq_refl).
  repeat split; reflexivity.
Defined.

(** X19. Once an update request has passed validation, the answer of
    [handlerUpdateItem] depends on the UPDATE alone, built from the
    sanitized map and the id of the path: if [Exec] or [RowsAffected]
    fails the answer is 400 with an empty body; otherwise it is 200 with
    [updated] 1 when the engine reports a positive number of affected rows
    and [updated] 0 when it does not. *)
Theorem handlerUpdateItem_after_validation exp r table columns primaryKey form id m :
  reachesValidator exp r table columns primaryKey form →
  getId exp (ReqPath r) = Return id →
  processForm form columns primaryKey updateOptions = (m, None) →
  let query := (updateItemStatement table m primaryKey (VString id)).2.1 in
  let args := (updateItemStatement table m primaryKey (VString id)).2.2 in
  (∀ e, Exec (DB exp) query args = inl e →
     handlerUpdateItem exp r = respond StatusBadRequest NoBody)
  ∧ (∀ result n e,
       Exec (DB exp) query args = inr result →
       RowsAffected result = (n, Some e) →
       handlerUpdateItem exp r = respond StatusBadRequest NoBody)
  ∧ (∀ result n,
       Exec (DB exp) query args = inr result →
       RowsAffected result = (n, None) →
       handlerUpdateItem exp r
       = respond StatusOK
           (Response (UpdateTableItemResponse (if (0 <? n)%Z then 1 else 0)))).
Proof.
  intros (Htable & Hcols & Hpk & Hbody) Hid Hform. cbn zeta.
  unfold handlerUpdateItem, updateItem. rewrite Htable. cbn [mbind result_bind].
  rewrite Hcols, Hpk, Hbody, Hid. cbn [mbind result_bind]. rewrite Hform.
  destruct (updateItemStatement table m primaryKey (VString id))
    as [columnNames [query args]].
  cbn [fst snd]. split; [|split].
  - by intros e ->.
  - intros result n e -> Hn. by rewrite Hn.
  - intros result n -> Hn. by rewrite Hn.
Qed.

Lemma handlerUpdateItem_after_validation_witness :
  handlerUpdateItem usersExplorer (updateRequest {["name" := VString "bo"]})
  = respond StatusOK (Response (UpdateTableItemResponse 1)).
Proof.
  refine (proj2 (proj2 (handlerUpdateItem_after_validation usersExplorer
            (updateRequest {["name" := VString "bo"]})
            "users" usersColumns "id" {["name" := VString "bo"]} "1"
            {["name" := VString "bo"]} _ eq_refl eq_refl))
            {| LastInsertId := (1%Z, None); RowsAffected := (1%Z, None) |} 1%Z
            eq_refl eq_refl).
  repeat split; reflexivity.
Defined.

(** ** Resolving the primary key *)

Lemma scanPrimaryKey_last pre final name s captures :
  Forall scansString pre →
  Scan final [KString] = (CString s :: captures, None) →
  scanPrimaryKey (pre ++ [final]) name = (s, None).
Proof.
  intros Hpre Hfinal. revert name.
  induction Hpre as [|row rows Hrow _ IH]; intros name.
  { cbn. by rewrite Hfinal. }
  cbn [app scanPrimaryKey]. unfold scansString in Hrow.
  destruct (Scan row [KString]) as [captures' err]. cbn in Hrow. subst err.
  apply IH.
Qed.

Lemma scanPrimaryKey_stops pre bad post name e :
  Forall scansString pre →
  (Scan bad [KString]).2 = Some e →
  scanPrimaryKey (pre ++ bad :: post) name = (EmptyString, Some e).
Proof.
  intros Hpre Hbad. revert name.
  induction Hpre as [|row rows Hrow _ IH]; intros name.
  { cbn. destruct (Scan bad [KString]) as [captures err]. cbn in Hbad. by subst err. }
  cbn [app scanPrimaryKey]. unfold scansString in Hrow.
  destruct (Scan row [KString]) as [captures' err]. cbn in Hrow. subst err.
  apply IH.
Qed.

(** X20. [getPrimaryKey] returns the column name of the last row of the
    constraint query: for a table without a primary key the empty string,
    with a nil error; for a key of several columns the last one listed
    alone. A row that cannot be scanned gives the empty string and that
    error. *)
Theorem getPrimaryKey_takes_last_row exp table rows :
  Query (DB exp) ("SELECT COLUMN_NAME
    FROM INFORMATION_SCHEMA.KEY_COLUMN_USAGE
    WHERE TABLE_NAME = '" +:+ table +:+ "'
      AND CONSTRAINT_NAME = 'PRIMARY'
      AND TABLE_SCHEMA = DATABASE()") [] = inr rows →
  (Next rows = [] → getPrimaryKey exp table = (EmptyString, None))
  ∧ (∀ pre final s captures,
       Next rows = (pre ++ [final])%list →
       Forall scansString pre →
       Scan final [KString] = (CString s :: captures, None) →
       getPrimaryKey exp table = (s, None))
  ∧ (∀ pre bad post e,
       Next rows = (pre ++ bad :: post)%list →
       Forall scansString pre →
       (Scan bad [KString]).2 = Some e →
       getPrimaryKey exp table = (EmptyString, Some e)).
Proof.
  intros Hquery. unfold getPrimaryKey. rewrite Hquery. split; [|split].
  - by intros ->.
  - intros pre final s captures -> Hpre Hfinal.
    by apply (scanPrimaryKey_last _ _ _ _ captures).
  - intros pre bad post e -> Hpre Hbad. by apply scanPrimaryKey_stops.
Qed.

(** A table without a primary key; a key of the two columns [order_id]
    and [product_id], in this order; and a key whose second row cannot be
    scanned. *)
Lemma getPrimaryKey_takes_last_row_witness :
  getPrimaryKey (keyRowsExplorer ["order_items"] [] 0) "order_items"
    = (EmptyString, None)
  ∧ getPrimaryKey
      (keyRowsExplorer ["order_items"] [stringRow "order_id"; stringRow "product_id"] 0)
      "order_items"
    = ("product_id", None)
  ∧ getPrimaryKey
      (keyRowsExplorer ["order_items"]
         [stringRow "order_id"; failingRow; stringRow "product_id"] 0)
      "order_items"
    = (EmptyString, Some (Errorf "sql: Scan error on column index 0")).
Proof.
  split; [|split].
  - refine (proj1 (getPrimaryKey_takes_last_row
              (keyRowsExplorer ["order_items"] [] 0) "order_items"
              {| Columns := (["COLUMN_NAME"], None); ColumnTypes := ([], None);
                 Next := [] |} eq_refl) eq_refl).
  - refine (proj1 (proj2 (getPrimaryKey_takes_last_row
              (keyRowsExplorer ["order_items"]
                 [stringRow "order_id"; stringRow "product_id"] 0) "order_items"
              {| Columns := (["COLUMN_NAME"], None); ColumnTypes := ([], None);
                 Next := [stringRow "order_id"; stringRow "product_id"] |} eq_refl))
              [stringRow "order_id"] (stringRow "product_id") "product_id" []
              eq_refl _ eq_refl).
    apply Forall_cons; split; [reflexivity|apply Forall_nil_2].
  - refine (proj2 (proj2 (getPrimaryKey_takes_last_row
              (keyRowsExplorer ["order_items"]
                 [stringRow "order_id"; failingRow; stringRow "product_id"] 0)
              "order_items"
              {| Columns := (["COLUMN_NAME"], None); ColumnTypes := ([], None);
                 Next := [stringRow "order_id"; failingRow; stringRow "product_id"] |}
              eq_refl))
              [stringRow "order_id"] failingRow [stringRow "product_id"]
              (Errorf "sql: Scan error on column index 0") eq_refl _ eq_refl).
    apply Forall_cons; split; [reflexivity|apply Forall_nil_2].
Defined.
